(** * Day3_MoE: a mixture of experts on CIFAR-10

    Shallow embedding of the notebook [Day3/Day3_MoE/Day3_MoE.ipynb].

    The notebook trains four VGG-like networks (a 10-class baseline, a
    2-class "artificial / natural" gate and two experts), freezes them and
    wires them, together with two small sub-gate networks, into one mixture
    whose last layer routes every example to one of two per-class blends.

    The development has four parts, each following the notebook's code:
    - data preparation (label lists, index lists, one-hot encoding);
    - the numeric meaning of the two [Lambda] layers of the mixture;
    - the symbolic Keras graph (layers with names, shapes and
      [trainable] flags, living in a store shared by all models);
    - the cells of the notebook, run on a world made of the graph, the
      weights of the layers, the checkpoint directories and a log of the
      training runs.

    Numbers are kept abstract: a tensor entry is an element of a type [R]
    that only has to provide the constants and operations the notebook
    uses, so every statement holds whatever arithmetic interprets them. *)

From stdpp Require Import base option list strings gmap pretty sorting.
From Stdlib Require Import ZArith Lia Ascii.

Set Default Proof Using "Type".

(** ** Number type of tensor entries *)

Class Num (R : Type) := {
  r0 : R;
  r1 : R;
  radd : R → R → R;
  rmul : R → R → R;
  rgt : R → R → bool
}.

#[export] Instance Num_Z : Num Z :=
  {| r0 := 0%Z; r1 := 1%Z; radd := Z.add; rmul := Z.mul; rgt := Z.gtb |}.

(** ** Parameters of the notebook (cell 7) *)

Definition orig_classes : nat := 10.
Definition gate0_classes : nat := 2.

(** ** Data preparation *)

(** [i in [0,1,8,9]] and [i in [2,3,4,5,6,7]] on a label. *)
Definition in_art (y : nat) : bool := bool_decide (y ∈ [0; 1; 8; 9]).
Definition in_nature (y : nat) : bool := bool_decide (y ∈ [2; 3; 4; 5; 6; 7]).

(** [a[idx]] with a list of positions (numpy integer-array indexing):
    an out-of-range position raises. *)
Definition gather {A} (a : list A) (idx : list nat) : option (list A) :=
  mapM (λ i, a !! i) idx.

(** [[i for i in range(len(y)) if y[i] in ...]] *)
Definition positions (p : nat → bool) (y : list nat) : list nat :=
  filter (λ i, from_option p false (y !! i)) (seq 0 (length y)).

Definition artTrain (y_train : list nat) : list nat := positions in_art y_train.
Definition natureTrain (y_train : list nat) : list nat := positions in_nature y_train.
Definition artTest (y_test : list nat) : list nat := positions in_art y_test.
Definition natureTest (y_test : list nat) : list nat := positions in_nature y_test.

Section Data.
Context {R : Type} `{!Num R}.

(** One row of [keras.utils.to_categorical]: zeros with a one at [c]. *)
Definition one_hot (num_classes c : nat) : list R :=
  <[c := r1]> (replicate num_classes r0).

(** [keras.utils.to_categorical(y, num_classes)] for a positive
    [num_classes], as the notebook calls it (Keras reads 0 as 'not
    given'): the assignment [categorical[np.arange(n), y] = 1] raises
    for a label that is not below [num_classes]. *)
Definition to_categorical (y : list nat) (num_classes : nat)
  : option (list (list R)) :=
  mapM (λ c, if bool_decide (c < num_classes)
             then Some (one_hot num_classes c) else None) y.

(** Cell 27: ground truth of the level-1 gate. *)
Definition gate0_label (i : nat) : nat := if in_art i then 0 else 1.

Definition y_G0 (y : list nat) : option (list (list R)) :=
  to_categorical (gate0_label <$> y) 2.
End Data.

(** ** Numeric tensors

    A batch of class vectors has shape (B, C) and is a list of rows; a
    batch of sub-gate outputs has shape (B, C, E).  Slicing with a static
    index that does not exist is an error of the backend.  Element-wise
    arithmetic is modelled on equal shapes, the only ones this graph
    has: the backend broadcasts some unequal shapes, which are given no
    result here, and everything below is stated on equal shapes. *)

Section Tensors.
Context {R : Type} `{!Num R}.

Definition dims2 (t : list (list R)) : list nat := length <$> t.
Definition dims3 (t : list (list (list R))) : list (list nat) :=
  fmap (M:=list) dims2 t.

(** [t[:,k]] *)
Definition slice2 (k : nat) (t : list (list R)) : option (list R) :=
  mapM (λ row, row !! k) t.

(** [t[:,:,k]] *)
Definition slice3 (k : nat) (t : list (list (list R))) : option (list (list R)) :=
  mapM (slice2 k) t.

(** Element-wise binary operation on equal shapes. *)
Definition ew1 {A B C} (op : A → B → C) (a : list A) (b : list B)
  : option (list C) :=
  if decide (length a = length b) then Some (zip_with op a b) else None.

Definition ew2 {A B C} (op : A → B → C) (a : list (list A)) (b : list (list B))
  : option (list (list C)) :=
  if decide (length a = length b)
  then mapM (λ p, ew1 op p.1 p.2) (zip a b) else None.

(** [a > b] on two vectors. *)
Definition greater (a b : list R) : option (list bool) := ew1 rgt a b.

(** [K.switch(condition, then_expression, else_expression)] with a
    condition of rank 1 and expressions of rank 2: the backend hands the
    three tensors to [tf.where], which wants both expressions of one
    shape and as many rows as the condition has entries, and picks whole
    rows. *)
Definition switch (condition : list bool) (then_expression else_expression : list (list R))
  : option (list (list R)) :=
  if decide (length condition = length then_expression
             ∧ dims2 then_expression = dims2 else_expression)
  then Some (zip_with (λ c rows, if c : bool then rows.1 else rows.2)
               condition (zip then_expression else_expression))
  else None.

(** Cell 56: the inner [Lambda],
    [(gx[0]*gx[2][:,:,0]) + (gx[1]*gx[2][:,:,1])] on
    [[base, expert, subgate]]. *)
Definition subGateLambda (base expert : list (list R)) (subgate : list (list (list R)))
  : option (list (list R)) :=
  g0 ← slice3 0 subgate;
  p0 ← ew2 rmul base g0;
  g1 ← slice3 1 subgate;
  p1 ← ew2 rmul expert g1;
  ew2 radd p0 p1.

(** Cell 57: the outer [Lambda] on
    [[baseVGG, gate0VGG, artificialVGG, naturalVGG, artGate, natureGate]]
    (gx[0] .. gx[5]).  Both branches are built before the switch. *)
Definition output (baseVGG gate0VGG artificialVGG naturalVGG : list (list R))
    (artGate natureGate : list (list (list R))) : option (list (list R)) :=
  c0 ← slice2 0 gate0VGG;
  c1 ← slice2 1 gate0VGG;
  condition ← greater c0 c1;
  then_expression ← subGateLambda baseVGG artificialVGG artGate;
  else_expression ← subGateLambda baseVGG naturalVGG natureGate;
  switch condition then_expression else_expression.

(** Numeric meaning of [Reshape((rows, cols))] on one example: the
    entries are laid out row by row; a vector of another size is an
    error. *)
Fixpoint chunks (rows cols : nat) (v : list R) : list (list R) :=
  match rows with
  | 0 => []
  | S rows' => take cols v :: chunks rows' cols (drop cols v)
  end.

Definition reshape_row (rows cols : nat) (v : list R) : option (list (list R)) :=
  if decide (length v = rows * cols) then Some (chunks rows cols v) else None.

Definition Reshape_apply (rows cols : nat) (t : list (list R)) : option (list (list (list R))) :=
  mapM (reshape_row rows cols) t.

(** Entry [t[i, c]] and entry [t[i, c, k]]. *)
Definition at2 (t : list (list R)) (i c : nat) : option R :=
  row ← t !! i; row !! c.
Definition at3 (t : list (list (list R))) (i c k : nat) : option R :=
  rows ← t !! i; cell ← rows !! c; cell !! k.
End Tensors.

(** ** Keras layers and their output shapes

    Shapes leave the batch axis out.  Every [Conv2D] of the notebook has
    [padding='same']; [MaxPooling2D] has the default stride (its pool size)
    and no padding, and refuses an image smaller than its pool; [Flatten]
    wants at least two axes besides the batch; the rate of a [Dropout] is
    given in percent. *)

Inductive Activation := relu | softmax.

Inductive LayerKind :=
  | InputLayer (shape : list nat)
  | Conv2D (filters : nat) (kernel_size : nat * nat) (activation : Activation)
  | MaxPooling2D (pool_size : nat * nat)
  | Dropout (percent : nat)
  | Flatten
  | Dense (units : nat) (activation : Activation)
  | Reshape (target_shape : list nat)
  | Lambda (output_shape : list nat).

Definition product (shape : list nat) : nat := foldr Nat.mul 1 shape.

Definition compute_output_shape (k : LayerKind) (input_shape : list nat)
  : option (list nat) :=
  match k, input_shape with
  | InputLayer shape, _ => Some shape
  | Conv2D filters _ _, [h; w; _] => Some [h; w; filters]
  | MaxPooling2D (ph, pw), [h; w; c] =>
      if decide (ph = 0 ∨ pw = 0 ∨ h < ph ∨ w < pw) then None
      else Some [h `div` ph; w `div` pw; c]
  | Dropout _, s => Some s
  | Flatten, s => if decide (2 ≤ length s) then Some [product s] else None
  | Dense units _, [_] => Some [units]
  | Reshape target_shape, s =>
      if decide (product s = product target_shape) then Some target_shape else None
  | Lambda output_shape, _ => Some output_shape
  | _, _ => None
  end.

(** Layers that own weight tensors. *)
Definition has_weights (k : LayerKind) : bool :=
  match k with
  | Conv2D _ _ _ | Dense _ _ => true
  | _ => false
  end.

(** A symbolic tensor: its shape and the names of the layers it was
    computed by, the producing layer last.  Keras lists the layers of a
    model by depth; nothing here depends on the order. *)
Record KTensor := { t_shape : list nat; t_history : list string }.

(** A [keras.models.Model]: the layers found from its output, its output
    shape, and the layers whose weights the last [compile] handed to the
    optimizer ([None] before the first [compile]).  [m_name] is the
    notebook variable the model is bound to. *)
Record Model := {
  m_name : string;
  m_layers : list string;
  m_output_shape : list nat;
  m_collected : option (list string)
}.

(** What the graph knows of a layer object: its kind and its
    [trainable] attribute. *)
Record Layer := { kind : LayerKind; trainable : bool }.

(** Directory names as the notebook spells them: ['baseCifar10'] for
    [shutil.rmtree], ["./baseCifar10/"] afterwards. *)
Fixpoint drop_trailing_slash (s : string) : string :=
  match s with
  | EmptyString => EmptyString
  | String a s' =>
      if decide (s' = "/"%string) then String a EmptyString
      else String a (drop_trailing_slash s')
  end.

Definition normpath (s : string) : string :=
  drop_trailing_slash
    (match s with
     | String "."%char (String "/"%char s') => s'
     | _ => s
     end).

(** ** Building the graph

    Layers are Python objects shared by every model built on them, so
    they live in one store indexed by their (unique) names.  Graph
    construction, [l.trainable = False] and [compile] read and change
    only this store; they may raise. *)

Definition Graph : Type := gmap string Layer.
Definition G (A : Type) : Type := Graph → option (A * Graph).

#[export] Instance G_ret : MRet G := λ A a g, Some (a, g).
#[export] Instance G_bind : MBind G := λ A B f m g,
  match m g with
  | Some (a, g') => f a g'
  | None => None
  end.

Definition G_lift {A} (o : option A) : G A :=
  λ g, match o with Some a => Some (a, g) | None => None end.

(** A new layer object.  Keras refuses a model in which two layers have
    one name (when the model is made); the notebook names its layers
    apart, and here a clash is an error as soon as the second layer is
    made. *)
Definition new_layer (name : string) (k : LayerKind) : G unit :=
  λ g, match g !! name with
       | Some _ => None
       | None => Some ((), <[name := {| kind := k; trainable := true |}]> g)
       end.

(** [Input(shape=..., name=...)]: an input layer is made non-trainable. *)
Definition Input (shape : list nat) (name : string) : G KTensor :=
  λ g, match g !! name with
       | Some _ => None
       | None =>
           Some ({| t_shape := shape; t_history := [name] |},
                 <[name := {| kind := InputLayer shape; trainable := false |}]> g)
       end.

(** [Layer(..., name=name)(inputs)]: a layer made and called on tensors. *)
Definition call (k : LayerKind) (name : string) (inputs : list KTensor)
  : G KTensor :=
  shape ← G_lift (compute_output_shape k (default [] (t_shape <$> head inputs)));
  _ ← new_layer name k;
  mret {| t_shape := shape;
          t_history := remove_dups (concat (t_history <$> inputs)) ++ [name] |}.

(** [[name+str(i) for i in range(n)]] *)
Definition layer_names (name : string) (n : nat) : list string :=
  (λ i, name +:+ pretty i) <$> seq 0 n.

(** Cell 17: small VGG-like model. *)
Definition simpleVGG (cifarInput : KTensor) (num_classes : nat) (name : string)
  : G KTensor :=
  let name := layer_names name 12 in
  vgg ← call (Conv2D 32 (3, 3) relu) (name !!! 0) [cifarInput];
  vgg ← call (Conv2D 32 (3, 3) relu) (name !!! 1) [vgg];
  vgg ← call (MaxPooling2D (2, 2)) (name !!! 2) [vgg];
  vgg ← call (Dropout 25) (name !!! 3) [vgg];
  vgg ← call (Conv2D 64 (3, 3) relu) (name !!! 4) [vgg];
  vgg ← call (Conv2D 64 (3, 3) relu) (name !!! 5) [vgg];
  vgg ← call (MaxPooling2D (2, 2)) (name !!! 6) [vgg];
  vgg ← call (Dropout 25) (name !!! 7) [vgg];
  vgg ← call Flatten (name !!! 8) [vgg];
  vgg ← call (Dense 512 relu) (name !!! 9) [vgg];
  vgg ← call (Dropout 50) (name !!! 10) [vgg];
  call (Dense num_classes softmax) (name !!! 11) [vgg].

(** Cell 18: large VGG-like model. *)
Definition fatVGG (cifarInput : KTensor) (num_classes : nat) (name : string)
  : G KTensor :=
  let name := layer_names name 17 in
  vgg ← call (Conv2D 32 (3, 3) relu) (name !!! 0) [cifarInput];
  vgg ← call (Conv2D 32 (3, 3) relu) (name !!! 1) [vgg];
  vgg ← call (MaxPooling2D (2, 2)) (name !!! 2) [vgg];
  vgg ← call (Dropout 25) (name !!! 3) [vgg];
  vgg ← call (Conv2D 64 (3, 3) relu) (name !!! 4) [vgg];
  vgg ← call (Conv2D 64 (3, 3) relu) (name !!! 5) [vgg];
  vgg ← call (MaxPooling2D (2, 2)) (name !!! 6) [vgg];
  vgg ← call (Dropout 25) (name !!! 7) [vgg];
  vgg ← call (Conv2D 128 (3, 3) relu) (name !!! 8) [vgg];
  vgg ← call (Conv2D 128 (3, 3) relu) (name !!! 9) [vgg];
  vgg ← call (Conv2D 128 (3, 3) relu) (name !!! 10) [vgg];
  vgg ← call (MaxPooling2D (2, 2)) (name !!! 11) [vgg];
  vgg ← call (Dropout 25) (name !!! 12) [vgg];
  vgg ← call Flatten (name !!! 13) [vgg];
  vgg ← call (Dense 512 relu) (name !!! 14) [vgg];
  vgg ← call (Dropout 50) (name !!! 15) [vgg];
  call (Dense num_classes softmax) (name !!! 16) [vgg].

(** Cell 54: sub-gate network of the second gating level. *)
Definition subGate (cifarInput : KTensor) (orig_classes numExperts : nat)
    (name : string) : G KTensor :=
  let name := layer_names name 5 in
  subgate ← call Flatten (name !!! 0) [cifarInput];
  subgate ← call (Dense 512 relu) (name !!! 1) [subgate];
  subgate ← call (Dropout 50) (name !!! 2) [subgate];
  subgate ← call (Dense (orig_classes * numExperts) softmax) (name !!! 3) [subgate];
  call (Reshape [orig_classes; numExperts]) (name !!! 4) [subgate].

(** Layers called one after the other, each on the tensor of the one
    before, as every stack of the notebook is written; and the shapes
    such a stack goes through. *)
Fixpoint chain (layers : list (LayerKind * string)) (t : KTensor)
  : G KTensor :=
  match layers with
  | [] => mret t
  | (k, name) :: layers => t' ← call k name [t]; chain layers t'
  end.

Fixpoint chain_shape (kinds : list LayerKind) (shape : list nat)
  : option (list nat) :=
  match kinds with
  | [] => Some shape
  | k :: kinds => shape' ← compute_output_shape k shape; chain_shape kinds shape'
  end.

(** The graph after the layers of a stack were added to it. *)
Definition with_layers (g : Graph) (layers : list (LayerKind * string)) : Graph :=
  foldl (λ g kn, <[kn.2 := {| kind := kn.1; trainable := true |}]> g) g layers.

(** [Model(inputs, outputs)], bound to the notebook variable [var]. *)
Definition mkModel (var : string) (inputs outputs : KTensor) : Model :=
  {| m_name := var; m_layers := t_history outputs;
     m_output_shape := t_shape outputs; m_collected := None |}.

Definition is_trainable (g : Graph) (name : string) : bool :=
  from_option trainable false (g !! name).

Definition owns_weights (g : Graph) (name : string) : bool :=
  from_option (λ l, has_weights (kind l)) false (g !! name).

(** [model.compile(...)]: the trainable weights are collected now. *)
Definition compiled (g : Graph) (model : Model) : Model :=
  {| m_name := m_name model; m_layers := m_layers model;
     m_output_shape := m_output_shape model;
     m_collected :=
       Some (filter (λ n, is_trainable g n && owns_weights g n)
               (m_layers model)) |}.

Definition compile (model : Model) : G Model := λ g, Some (compiled g model, g).

(** [for l in model.layers: l.trainable = False] *)
Definition freeze (model : Model) : G unit :=
  λ g, Some ((), foldl (λ g n, alter (λ l, {| kind := kind l; trainable := false |}) n g)
                   g (m_layers model)).

(** ** The graph of the notebook *)

(** Cell 9: the three size flags. *)
Record Flags := {
  use_large_experts : bool;
  use_large_gating_mlp : bool;
  use_large_baseline_classifier : bool
}.

(** [x_train.shape[1:]] of the CIFAR-10 arrays. *)
Definition cifar10_image_shape : list nat := [32; 32; 3].

(** The notebook's variables after cell 19. *)
Record Nets := {
  cifarInput : KTensor;
  gate0VGG : KTensor;  gate0Model : Model;
  baseVGG : KTensor;  baseModel : Model;
  artificialVGG : KTensor;  artificialModel : Model;
  naturalVGG : KTensor;  naturalModel : Model
}.

(** Cells 16 and 19. *)
Definition define_architectures (f : Flags) : G Nets :=
  cifarInput ← Input cifar10_image_shape "input";
  gate0VGG ← (if use_large_gating_mlp f
              then fatVGG cifarInput gate0_classes "gate0"
              else simpleVGG cifarInput gate0_classes "gate0");
  let gate0Model := mkModel "gate0Model" cifarInput gate0VGG in
  baseVGG ← (if use_large_baseline_classifier f
             then fatVGG cifarInput orig_classes "base"
             else simpleVGG cifarInput orig_classes "base");
  let baseModel := mkModel "baseModel" cifarInput baseVGG in
  artificialVGG ← (if use_large_experts f
                   then fatVGG cifarInput orig_classes "artificial"
                   else simpleVGG cifarInput orig_classes "artificial");
  let artificialModel := mkModel "artificialModel" cifarInput artificialVGG in
  naturalVGG ← (if use_large_experts f
                then fatVGG cifarInput orig_classes "natural"
                else simpleVGG cifarInput orig_classes "natural");
  let naturalModel := mkModel "naturalModel" cifarInput naturalVGG in
  mret {| cifarInput := cifarInput;
          gate0VGG := gate0VGG; gate0Model := gate0Model;
          baseVGG := baseVGG; baseModel := baseModel;
          artificialVGG := artificialVGG; artificialModel := artificialModel;
          naturalVGG := naturalVGG; naturalModel := naturalModel |}.

(** Cell 51: freeze the four trained models. *)
Definition freeze_all (n : Nets) : G unit :=
  _ ← freeze (baseModel n);
  _ ← freeze (gate0Model n);
  _ ← freeze (artificialModel n);
  freeze (naturalModel n).

(** The notebook's variables after cell 58. *)
Record Mixture := {
  artGate : KTensor;
  natureGate : KTensor;
  moe_output : KTensor;
  model : Model
}.

(** Cells 55, 57 and 58.  The outer [Lambda] gets Keras's automatic
    name; the [Lambda] layers that [subGateLambda] makes inside its
    function are not layers of the graph. *)
Definition connect (n : Nets) : G Mixture :=
  artGate ← subGate (cifarInput n) orig_classes 2 "artExpertGate";
  natureGate ← subGate (cifarInput n) orig_classes 2 "natureExpertGate";
  output ← call (Lambda [orig_classes]) "lambda_1"
             [baseVGG n; gate0VGG n; artificialVGG n; naturalVGG n;
              artGate; natureGate];
  mret {| artGate := artGate; natureGate := natureGate;
          moe_output := output;
          model := mkModel "model" (cifarInput n) output |}.

(** [model.compile] of cells 22, 28, 37 and 44, the models rebound. *)
Definition compile_all (n : Nets) : G Nets :=
  baseModel ← compile (baseModel n);
  gate0Model ← compile (gate0Model n);
  artificialModel ← compile (artificialModel n);
  naturalModel ← compile (naturalModel n);
  mret {| cifarInput := cifarInput n;
          gate0VGG := gate0VGG n; gate0Model := gate0Model;
          baseVGG := baseVGG n; baseModel := baseModel;
          artificialVGG := artificialVGG n; artificialModel := artificialModel;
          naturalVGG := naturalVGG n; naturalModel := naturalModel |}.

(** Cell 59 on the mixture. *)
Definition compile_mixture (mix : Mixture) : G Mixture :=
  moe ← compile (model mix);
  mret {| artGate := artGate mix; natureGate := natureGate mix;
          moe_output := moe_output mix; model := moe |}.

(** What the notebook does to the graph, in the order of its cells; the
    cells in between train, and leave the graph alone. *)
Definition graph_program (f : Flags) : G (Nets * Mixture) :=
  n ← define_architectures f;
  n ← compile_all n;
  _ ← freeze_all n;
  mix ← connect n;
  mix ← compile_mixture mix;
  mret (n, mix).

Definition small : Flags :=
  {| use_large_experts := false; use_large_gating_mlp := false;
     use_large_baseline_classifier := false |}.

(** ** Python's [sorted(l, key=...)]

    The sort is stable: entries with equal keys keep their order. *)

Section Sorted.
Context {A : Type} (key : A → Z).

Fixpoint insert_sorted (x : A) (l : list A) : list A :=
  match l with
  | [] => [x]
  | y :: l' =>
      if decide (key x ≤ key y)%Z then x :: l else y :: insert_sorted x l'
  end.

Definition sorted (l : list A) : list A := foldr insert_sorted [] l.
End Sorted.

(** ** The world of the notebook

    Besides the graph, the world holds the current weights of every
    layer (for a name not yet in the graph: the weights the layer starts
    with), the checkpoint directories, and a log of the training runs.
    For every existing directory the file system holds the entries that
    [glob(dirname + '/*')] lists, in the order it lists them; an entry
    carries its modification time (only ever compared, so an integer
    stands for the float of [os.path.getmtime]) and what [load_weights]
    reads in it for a model: the weights by layer, or nothing when the
    entry is not a checkpoint of that model (a text file, a directory,
    the checkpoint of another architecture). *)

Section World.
Context {R : Type} `{!Num R}.
(** Weights of one layer, and one image. *)
Context {W Image : Type}.

Record File := {
  path : string;
  mtime : Z;
  saved : Model → option (gmap string W)
}.

Inductive Event :=
  | FitBegin (model : string) (x : list Image) (y : list (list R))
      (validation_data : list Image * list (list R))
  | FitEnd (model : string).

Record World := {
  graph : Graph;
  weights : string → W;
  fs : gmap string (list File);
  log : list Event
}.

(** Computations of the notebook: they read and change the world and
    may raise. *)
Definition NB (A : Type) : Type := World → option (A * World).

#[export] Instance NB_ret : MRet NB := λ A a w, Some (a, w).
#[export] Instance NB_bind : MBind NB := λ A B f m w,
  match m w with
  | Some (a, w') => f a w'
  | None => None
  end.

Definition lift {A} (o : option A) : NB A :=
  λ w, match o with Some a => Some (a, w) | None => None end.

Definition liftG {A} (m : G A) : NB A :=
  λ w, match m (graph w) with
       | Some (a, g') =>
           Some (a, {| graph := g'; weights := weights w; fs := fs w; log := log w |})
       | None => None
       end.

(** [shutil.rmtree(d, ignore_errors=True)] *)
Definition rmtree (d : string) : NB unit :=
  λ w, Some ((), {| graph := graph w; weights := weights w;
                    fs := delete (normpath d) (fs w); log := log w |}).

(** [if not os.path.isdir(d): os.makedirs(d)] *)
Definition ensure_dir (d : string) : NB unit :=
  λ w, Some ((), {| graph := graph w; weights := weights w;
                    fs := match fs w !! normpath d with
                          | Some _ => fs w
                          | None => <[normpath d := []]> (fs w)
                          end;
                    log := log w |}).

(** [glob(os.path.join(dirname, '*'))] *)
Definition glob (dirname : string) : NB (list File) :=
  λ w, Some (default [] (fs w !! normpath dirname), w).

(** [model.load_weights(f)]: raises when the entry is not a checkpoint
    of the model; otherwise every layer of the model takes the weights
    read for it. *)
Definition load_weights (model : Model) (f : File) : NB unit :=
  λ w, match saved f model with
       | Some read =>
           Some ((), {| graph := graph w;
                        weights := λ n, if decide (n ∈ m_layers model)
                                        then default (weights w n) (read !! n)
                                        else weights w n;
                        fs := fs w; log := log w |})
       | None => None
       end.

(** Cell 10: get the newest model file within a directory. *)
Definition getNewestModel (model : Model) (dirname : string) : NB Model :=
  found ← glob dirname;
  let files := (λ f, (f, mtime f)) <$> found in
  if decide (length files = 0) then mret model
  else
    newestModel ← lift (last (sorted snd files));
    _ ← load_weights model newestModel.1;
    mret model.

(** What training computes is left open: [optimizer] gives the weights
    of a layer after a run of [fit] (batch size, epochs and early
    stopping included), [checkpointed] the listing of the checkpoint
    directory after it. *)
Context (optimizer : Model → (string → W) → list Image → list (list R) →
                     list Image * list (list R) → string → W).
Context (checkpointed : Model → (string → W) → list Image → list (list R) →
                        list Image * list (list R) → list File → list File).

(** An entry that [load_weights] accepts for the model; and what the
    checkpoint callback is taken to do: in a directory that held nothing
    it leaves only checkpoints of the model it watches. *)
Definition loadable (model : Model) (f : File) : Prop :=
  is_Some (saved f model).

Definition writes_checkpoints : Prop :=
  ∀ model weights x y validation_data,
    Forall (loadable model) (checkpointed model weights x y validation_data []).

Definition fits (classes : nat) (x : list Image) (y : list (list R)) : Prop :=
  length x = length y ∧ dims2 y = replicate (length y) classes.

#[export] Instance fits_dec classes x y : Decision (fits classes x y).
Proof. unfold fits. apply _. Defined.

(** [model.fit(x, y, validation_data=..., callbacks=[es_cb, cp_cb])]:
    the model must have been compiled, inputs and targets must agree
    with each other and with the model's output; without a training
    example or without a validation example no [val_loss] is logged, and
    the checkpoint callback, which writes it into its file name, raises;
    only the weights collected by [compile] are updated; the checkpoint
    callback writes into the directory [dirname], which it does not
    make: the directory has to be there. *)
Definition fit (model : Model) (x : list Image) (y : list (list R))
    (validation_data : list Image * list (list R)) (dirname : string) : NB unit :=
  λ w, match m_collected model, m_output_shape model with
       | Some collected, [classes] =>
           if decide (fits classes x y
                      ∧ fits classes validation_data.1 validation_data.2
                      ∧ x ≠ [] ∧ validation_data.1 ≠ []
                      ∧ is_Some (fs w !! normpath dirname))
           then Some ((),
             {| graph := graph w;
                weights := λ n, if decide (n ∈ collected)
                                then optimizer model (weights w) x y validation_data n
                                else weights w n;
                fs := <[normpath dirname :=
                          checkpointed model (weights w) x y validation_data
                            (default [] (fs w !! normpath dirname))]> (fs w);
                log := log w ++ [FitBegin (m_name model) x y validation_data;
                                 FitEnd (m_name model)] |})
           else None
       | _, _ => None
       end.

(** *** The cells of the notebook *)

(** [cifar10.load_data()] *)
Record Cifar10 := {
  cifar_x_train : list Image;  cifar_y_train : list nat;
  cifar_x_test : list Image;  cifar_y_test : list nat
}.

(** Cell 9. *)
Record Settings := {
  train_examples : nat;
  test_examples : nat;
  flags : Flags
}.

(** [x.astype('float32')] and [x /= 255] on one image. *)
Context (scale : Image → Image).

(** The variables the last cells use. *)
Record Vars := {
  x_train : list Image;  y_train : list nat;
  x_test : list Image;  y_test : list nat;
  y_train0 : list (list R);  y_test0 : list (list R);
  nets : Nets;
  mixture : Mixture
}.

(** The training cells of one network (22 to 25, 28 to 31, 37 to 40,
    44 to 47): compile, make the checkpoint directory, load the newest
    checkpoint if there is one, fit, and load the newest checkpoint
    again before [evaluate], which only reads the world. *)
Definition train_cells (model : Model) (saveDir : string)
    (x : list Image) (y : list (list R))
    (validation_data : list Image * list (list R)) : NB Model :=
  model ← liftG (compile model);
  _ ← ensure_dir saveDir;
  model ← getNewestModel model saveDir;
  _ ← fit model x y validation_data saveDir;
  getNewestModel model saveDir.

(** Cells 10 to 61. *)
Definition cells_10_61 (s : Settings) (c : Cifar10) : NB Vars :=
  (* cell 10 *)
  _ ← rmtree "gate0Cifar10";
  _ ← rmtree "moe3Cifar10";
  _ ← rmtree "natureCifar10";
  _ ← rmtree "baseCifar10";
  _ ← rmtree "artCifar10";
  (* cells 12 and 13 *)
  let x_train := scale <$> take (train_examples s) (cifar_x_train c) in
  let x_test := scale <$> take (test_examples s) (cifar_x_test c) in
  let y_train := take (train_examples s) (cifar_y_train c) in
  let y_test := take (test_examples s) (cifar_y_test c) in
  (* cell 14 *)
  y_train0 ← lift (to_categorical y_train orig_classes);
  y_test0 ← lift (to_categorical y_test orig_classes);
  (* cells 16 to 19 *)
  n ← liftG (define_architectures (flags s));
  (* cells 22 to 25 *)
  baseModel ← train_cells (baseModel n) "./baseCifar10/"
                 x_train y_train0 (x_test, y_test0);
  (* cells 27 to 31 *)
  y_trainG0 ← lift (y_G0 y_train);
  y_testG0 ← lift (y_G0 y_test);
  gate0Model ← train_cells (gate0Model n) "./gate0Cifar10/"
                  x_train y_trainG0 (x_test, y_testG0);
  (* cells 33 and 34 *)
  x_trainArt ← lift (gather x_train (artTrain y_train));
  x_testArt ← lift (gather x_test (artTest y_test));
  y_trainArt ← lift (gather y_train (artTrain y_train));
  y_testArt ← lift (gather y_test (artTest y_test));
  (* cells 36 to 40 *)
  y_trainArt ← lift (to_categorical y_trainArt orig_classes);
  y_testArt ← lift (to_categorical y_testArt orig_classes);
  artificialModel ← train_cells (artificialModel n) "./artCifar10/"
                       x_trainArt y_trainArt (x_testArt, y_testArt);
  (* cells 42 to 47 *)
  x_trainNat ← lift (gather x_train (natureTrain y_train));
  x_testNat ← lift (gather x_test (natureTest y_test));
  y_trainNat ← lift (gather y_train (natureTrain y_train));
  y_testNat ← lift (gather y_test (natureTest y_test));
  y_trainNat ← lift (to_categorical y_trainNat orig_classes);
  y_testNat ← lift (to_categorical y_testNat orig_classes);
  naturalModel ← train_cells (naturalModel n) "./natureCifar10/"
                    x_trainNat y_trainNat (x_testNat, y_testNat);
  let n := {| cifarInput := cifarInput n;
              gate0VGG := gate0VGG n; gate0Model := gate0Model;
              baseVGG := baseVGG n; baseModel := baseModel;
              artificialVGG := artificialVGG n; artificialModel := artificialModel;
              naturalVGG := naturalVGG n; naturalModel := naturalModel |} in
  (* cell 51 *)
  _ ← liftG (freeze_all n);
  (* cells 54 to 58 *)
  mix ← liftG (connect n);
  (* cell 59 *)
  moe ← liftG (compile (model mix));
  (* cell 61 *)
  _ ← ensure_dir "./moe3Cifar10/";
  moe ← getNewestModel moe "./moe3Cifar10/";
  mret {| x_train := x_train; y_train := y_train;
          x_test := x_test; y_test := y_test;
          y_train0 := y_train0; y_test0 := y_test0;
          nets := n;
          mixture := {| artGate := artGate mix; natureGate := natureGate mix;
                        moe_output := moe_output mix; model := moe |} |}.

(** Cell 62: train the mixture. *)
Definition cell_62 (v : Vars) : NB unit :=
  fit (model (mixture v)) (x_train v) (y_train0 v) (x_test v, y_test0 v)
    "./moe3Cifar10/".

Definition notebook (s : Settings) (c : Cifar10) : NB Vars :=
  v ← cells_10_61 s c;
  _ ← cell_62 v;
  mret v.

(** The computation succeeds in [w], with a result and a world that
    satisfy [Q]. *)
Definition runs {A} (m : NB A) (w : World) (Q : A → World → Prop) : Prop :=
  ∃ a w', m w = Some (a, w') ∧ Q a w'.

(** The examples of a data set whose label passes the test [p]. *)
Definition domain_examples (p : nat → bool) (x : list Image) (y : list nat)
  : list (Image * nat) :=
  filter (λ xy, p xy.2 = true) (zip x y).

(** The targets of the level-1 gate: one row per label. *)
Definition gate_row (i : nat) : list R :=
  if bool_decide (i ∈ [0; 1; 8; 9]) then [r1; r0] else [r0; r1].

(** The training runs of cells 24, 30, 39, 46 and 62 on the prepared
    data [x], [y] (training) and [xt], [yt] (test), as the log shows
    them. *)
Definition training_runs (x : list Image) (y : list nat)
    (xt : list Image) (yt : list nat) : list Event :=
  [FitBegin "baseModel" x (one_hot orig_classes <$> y)
     (xt, one_hot orig_classes <$> yt);
   FitEnd "baseModel";
   FitBegin "gate0Model" x (gate_row <$> y) (xt, gate_row <$> yt);
   FitEnd "gate0Model";
   FitBegin "artificialModel" (domain_examples in_art x y).*1
     (one_hot orig_classes <$> (domain_examples in_art x y).*2)
     ((domain_examples in_art xt yt).*1,
      one_hot orig_classes <$> (domain_examples in_art xt yt).*2);
   FitEnd "artificialModel";
   FitBegin "naturalModel" (domain_examples in_nature x y).*1
     (one_hot orig_classes <$> (domain_examples in_nature x y).*2)
     ((domain_examples in_nature xt yt).*1,
      one_hot orig_classes <$> (domain_examples in_nature xt yt).*2);
   FitEnd "naturalModel";
   FitBegin "model" x (one_hot orig_classes <$> y)
     (xt, one_hot orig_classes <$> yt);
   FitEnd "model"].

(** What an entry of the log marks: the start or the end of the
    training of a model. *)
Definition phase (e : Event) : string * string :=
  match e with
  | FitBegin m _ _ _ => ("begin", m)
  | FitEnd m => ("end", m)
  end.

(** A fresh kernel: no layer exists and nothing was trained yet. *)
Definition fresh (w : World) : Prop := graph w = ∅ ∧ log w = [].

(** What [cifar10.load_data()] promises: as many labels as images, and
    labels below 10. *)
Definition valid_cifar10 (c : Cifar10) : Prop :=
  length (cifar_x_train c) = length (cifar_y_train c)
  ∧ length (cifar_x_test c) = length (cifar_y_test c)
  ∧ Forall (λ l, l < orig_classes) (cifar_y_train c)
  ∧ Forall (λ l, l < orig_classes) (cifar_y_test c).

(** Labels among which both domains occur; and settings under which
    every training and every validation set of the notebook has an
    example: the labels it uses, for training and for testing, hold an
    artificial and a natural class. *)
Definition both_domains (y : list nat) : Prop :=
  Exists (λ l, in_art l = true) y ∧ Exists (λ l, in_nature l = true) y.

Definition enough_examples (s : Settings) (c : Cifar10) : Prop :=
  both_domains (take (train_examples s) (cifar_y_train c))
  ∧ both_domains (take (test_examples s) (cifar_y_test c)).
End World.

Arguments File : clear implicits.
Arguments Event : clear implicits.
Arguments World : clear implicits.
Arguments NB : clear implicits.
Arguments Cifar10 : clear implicits.
Arguments Vars : clear implicits.

Arguments define_architectures : simpl never.
Arguments freeze_all : simpl never.
Arguments connect : simpl never.

(** The layers of the four trained models, as the freeze loops visit them. *)
Definition pretrained_layers (n : Nets) : list string :=
  m_layers (baseModel n) ++ m_layers (gate0Model n)
  ++ m_layers (artificialModel n) ++ m_layers (naturalModel n).

(** The layers of the two sub-gates that own weights, and all the layers
    that cells 55 and 57 add to the graph. *)
Definition sub_gate_weights : list string :=
  ["artExpertGate1"; "artExpertGate3"; "natureExpertGate1"; "natureExpertGate3"].
Definition mixture_layers : list string :=
  layer_names "artExpertGate" 5 ++ layer_names "natureExpertGate" 5
  ++ ["lambda_1"].

#[export] Instance Activation_eq_dec : EqDecision Activation.
Proof. solve_decision. Defined.
#[export] Instance LayerKind_eq_dec : EqDecision LayerKind.
Proof. solve_decision. Defined.

(** What running the graph program shows, whatever the size flags:
    the shapes of the six tensors that enter the output layer and of its
    result; the last layer of each VGG; the last two layers and the
    history of each sub-gate; names and output shapes of the five models;
    that the four trained models are compiled, frozen, and part of the
    mixture; which layers of the mixture are trainable, and which of them
    hand weights to the optimizer. *)
Definition graph_facts (n : Nets) (mix : Mixture) (g : Graph) : Prop :=
  (t_shape (baseVGG n), t_shape (gate0VGG n),
   t_shape (artificialVGG n), t_shape (naturalVGG n))
  = ([orig_classes], [gate0_classes], [orig_classes], [orig_classes])
  ∧ (t_shape (artGate mix), t_shape (natureGate mix), t_shape (moe_output mix))
    = ([orig_classes; 2], [orig_classes; 2], [orig_classes])
  ∧ (λ t, kind <$> (last (t_history t) ≫= λ nm, g !! nm))
      <$> [baseVGG n; gate0VGG n; artificialVGG n; naturalVGG n]
    = [Some (Dense orig_classes softmax); Some (Dense gate0_classes softmax);
       Some (Dense orig_classes softmax); Some (Dense orig_classes softmax)]
  ∧ (λ nm, kind <$> g !! nm)
      <$> ["artExpertGate3"; "artExpertGate4";
           "natureExpertGate3"; "natureExpertGate4"]
    = [Some (Dense 20 softmax); Some (Reshape [10; 2]);
       Some (Dense 20 softmax); Some (Reshape [10; 2])]
  ∧ (t_history (artGate mix), t_history (natureGate mix))
    = ("input" :: layer_names "artExpertGate" 5,
       "input" :: layer_names "natureExpertGate" 5)
  ∧ (λ m, (m_name m, m_output_shape m))
      <$> [baseModel n; gate0Model n; artificialModel n; naturalModel n; model mix]
    = [("baseModel", [10]); ("gate0Model", [2]); ("artificialModel", [10]);
       ("naturalModel", [10]); ("model", [10])]
  ∧ forallb (λ m, bool_decide (is_Some (m_collected m)))
      [baseModel n; gate0Model n; artificialModel n; naturalModel n] = true
  ∧ forallb (λ nm, negb (is_trainable g nm)) (pretrained_layers n) = true
  ∧ forallb (λ nm, bool_decide (nm ∈ m_layers (model mix))) (pretrained_layers n)
    = true
  ∧ filter (λ nm, is_trainable g nm = true) (m_layers (model mix))
    = mixture_layers
  ∧ m_collected (model mix) = Some sub_gate_weights.

#[export] Instance graph_facts_dec n mix g : Decision (graph_facts n mix g).
Proof. unfold graph_facts. apply _. Defined.

(** ** A small instance

    Integers for numbers, numbers for images and for weights; a training
    run that adds one to every collected weight and leaves one more
    checkpoint in the directory. *)

Definition sample_optimizer
  : Model → (string → nat) → list nat → list (list Z) →
    list nat * list (list Z) → string → nat :=
  λ _ weights _ _ _ name, S (weights name).

Definition sample_checkpointed
  : Model → (string → nat) → list nat → list (list Z) →
    list nat * list (list Z) → list (File nat) → list (File nat) :=
  λ model _ _ _ _ listing,
    listing ++ [{| path := m_name model; mtime := Z.of_nat (length listing);
                   saved := λ _, Some ∅ |}].

Definition sample_world : World Z nat nat :=
  {| graph := ∅; weights := λ _, 0; fs := ∅; log := [] |}.

Definition sample_cifar10 : Cifar10 nat :=
  {| cifar_x_train := [10; 11; 12; 13; 14; 15];
     cifar_y_train := [0; 3; 9; 5; 1; 7];
     cifar_x_test := [20; 21; 22];
     cifar_y_test := [8; 2; 4] |}.

Definition sample_settings : Settings :=
  {| train_examples := 5; test_examples := 3; flags := small |}.

(** Two examples: the gate sends the first to the artificial branch and,
    on a tie, the second to the natural branch. *)
Definition sample_base : list (list Z) :=
  [[1; 2; 3; 4; 5; 6; 7; 8; 9; 10]; [1; 1; 1; 1; 1; 1; 1; 1; 1; 1]]%Z.
Definition sample_gate : list (list Z) := [[7; 3]; [2; 2]]%Z.
Definition sample_art : list (list Z) :=
  [[10; 20; 30; 40; 50; 60; 70; 80; 90; 100]; [2; 2; 2; 2; 2; 2; 2; 2; 2; 2]]%Z.
Definition sample_nat : list (list Z) :=
  [[5; 5; 5; 5; 5; 5; 5; 5; 5; 5]; [3; 3; 3; 3; 3; 3; 3; 3; 3; 3]]%Z.
Definition sample_units : list (list Z) :=
  [[1; 1; 1; 2; 1; 3; 1; 4; 1; 5; 1; 6; 1; 7; 1; 8; 1; 9; 1; 10];
   [2; 1; 2; 1; 2; 1; 2; 1; 2; 1; 2; 1; 2; 1; 2; 1; 2; 1; 2; 1]]%Z.
Definition sample_artGate : list (list (list Z)) :=
  [chunks 10 2 [1; 1; 1; 2; 1; 3; 1; 4; 1; 5; 1; 6; 1; 7; 1; 8; 1; 9; 1; 10];
   chunks 10 2 [2; 1; 2; 1; 2; 1; 2; 1; 2; 1; 2; 1; 2; 1; 2; 1; 2; 1; 2; 1]]%Z.
Definition sample_natureGate : list (list (list Z)) :=
  [replicate 10 [0; 1]; replicate 10 [1; 2]]%Z.

(** * Properties *)

(** ** Data preparation *)

Lemma in_art_spec y : in_art y = true ↔ y ∈ [0; 1; 8; 9].
Proof. unfold in_art. by rewrite bool_decide_eq_true. Qed.

Lemma in_nature_spec y : in_nature y = true ↔ y ∈ [2; 3; 4; 5; 6; 7].
Proof. unfold in_nature. by rewrite bool_decide_eq_true. Qed.

Lemma in_art_lt y : in_art y = true → y < orig_classes.
Proof.
  rewrite in_art_spec, !elem_of_cons, elem_of_nil. unfold orig_classes. lia.
Qed.

Lemma in_nature_lt y : in_nature y = true → y < orig_classes.
Proof.
  rewrite in_nature_spec, !elem_of_cons, elem_of_nil. unfold orig_classes. lia.
Qed.

Lemma art_xor_nature y : y ≤ 9 → in_art y = negb (in_nature y).
Proof.
  intros Hy. do 10 (destruct y as [|y]; [reflexivity|]). lia.
Qed.

Lemma art_not_nature y : in_art y = true → in_nature y = false.
Proof.
  rewrite in_art_spec, !elem_of_cons, elem_of_nil.
  intros [->|[->|[->|[->|[]]]]]; reflexivity.
Qed.

Lemma elem_of_positions p y i :
  i ∈ positions p y ↔ ∃ l, y !! i = Some l ∧ p l = true.
Proof.
  unfold positions. rewrite list_elem_of_filter, elem_of_seq. split.
  - intros [Hp _]. destruct (y !! i) as [l|]; simpl in *; [|done].
    exists l. split; [done|]. by apply Is_true_true.
  - intros (l & Hl & Hp). rewrite Hl. simpl. split; [by apply Is_true_true|].
    apply lookup_lt_Some in Hl. lia.
Qed.

Lemma NoDup_positions p y : NoDup (positions p y).
Proof. apply NoDup_filter, NoDup_seq. Qed.

(** The positions kept from a list that continues a prefix. *)
Lemma positions_from_cons p (pre : list nat) a y :
  filter (λ i, from_option p false ((pre ++ a :: y) !! i))
    (seq (length pre) (S (length y)))
  = (if p a then [length pre] else [])
    ++ filter (λ i, from_option p false (((pre ++ [a]) ++ y) !! i))
         (seq (length (pre ++ [a])) (length y)).
Proof.
  rewrite length_app, Nat.add_1_r. simpl length.
  rewrite <-(assoc_L (++) pre [a] y). simpl seq. rewrite filter_cons.
  rewrite (list_lookup_middle pre y a (length pre) eq_refl). simpl.
  destruct (p a); simpl; [|done].
  destruct (decide (Is_true true)) as [|[]]; done.
Qed.

Lemma gather_positions_from {A} p (y : list nat) :
  ∀ (x prex : list A) (pre : list nat),
    length prex = length pre → length x = length y →
    gather (prex ++ x)
      (filter (λ i, from_option p false ((pre ++ y) !! i))
         (seq (length pre) (length y)))
    = Some ((filter (λ xy, p xy.2 = true) (zip x y)).*1).
Proof.
  induction y as [|a y IH]; intros x prex pre Hpre Hlen.
  { destruct x; [|done]. reflexivity. }
  destruct x as [|b x]; [done|]. simpl in Hlen.
  simpl length. rewrite positions_from_cons.
  assert (Htl : gather (prex ++ b :: x)
            (filter (λ i, from_option p false (((pre ++ [a]) ++ y) !! i))
               (seq (length (pre ++ [a])) (length y)))
          = Some ((filter (λ xy, p xy.2 = true) (zip x y)).*1)).
  { rewrite (cons_middle b prex x), (assoc_L (++)).
    apply IH; [rewrite !length_app; simpl; lia | lia]. }
  simpl zip. rewrite filter_cons. simpl.
  destruct (p a) eqn:Hp; simpl.
  - unfold gather in *. simpl. rewrite list_lookup_middle by done. simpl.
    rewrite Htl. reflexivity.
  - exact Htl.
Qed.

(** [x[positions]] keeps exactly the entries of [x] whose label passes
    the test, in their order. *)
Lemma gather_positions {A} p (x : list A) (y : list nat) :
  length x = length y →
  gather x (positions p y) = Some ((filter (λ xy, p xy.2 = true) (zip x y)).*1).
Proof.
  intros Hlen. exact (gather_positions_from p y x [] [] eq_refl Hlen).
Qed.

Lemma filter_zip_diag p (y : list nat) :
  (filter (λ xy : nat * nat, p xy.2 = true) (zip y y)).*1 = filter (λ l, p l = true) y.
Proof.
  induction y as [|a y IH]; [done|].
  simpl zip. rewrite !filter_cons. simpl.
  destruct (decide (p a = true)); simpl; [f_equal|]; exact IH.
Qed.

Lemma gather_positions_labels p (y : list nat) :
  gather y (positions p y) = Some (filter (λ l, p l = true) y).
Proof. rewrite gather_positions by done. by rewrite filter_zip_diag. Qed.

Lemma filter_zip_snd {A} p (x : list A) (y : list nat) :
  length x = length y →
  (filter (λ xy, p xy.2 = true) (zip x y)).*2 = filter (λ l, p l = true) y.
Proof.
  revert y. induction x as [|b x IH]; intros [|a y] Hlen; try done.
  simpl zip. rewrite !filter_cons. simpl.
  destruct (decide (p a = true)); simpl; [f_equal|]; apply IH; auto.
Qed.

Section DataFacts.
Context {R : Type} `{!Num R}.

Lemma to_categorical_Some (y : list nat) k :
  Forall (λ c, c < k) y → to_categorical (R:=R) y k = Some (one_hot k <$> y).
Proof.
  unfold to_categorical. induction 1 as [|c y Hc _ IH]; [done|].
  simpl. rewrite bool_decide_true by done. simpl. rewrite IH. done.
Qed.

Lemma dims2_one_hot (y : list nat) k :
  dims2 (one_hot (R:=R) k <$> y) = replicate (length y) k.
Proof.
  unfold dims2. induction y as [|c y IH]; [done|].
  simpl. f_equal; [|exact IH].
  unfold one_hot. by rewrite length_insert, length_replicate.
Qed.

Lemma y_G0_Some (y : list nat) :
  y_G0 (R:=R) y
  = Some ((λ i, if bool_decide (i ∈ [0; 1; 8; 9]) then [r1; r0] else [r0; r1]) <$> y).
Proof.
  unfold y_G0. rewrite to_categorical_Some.
  - f_equal. rewrite <-list_fmap_compose. apply list_fmap_ext.
    intros _ i _. simpl. unfold gate0_label, in_art.
    destruct (bool_decide (i ∈ [0; 1; 8; 9])); reflexivity.
  - apply Forall_fmap, Forall_forall. intros i _. simpl.
    unfold gate0_label. destruct (in_art i); lia.
Qed.
End DataFacts.

(** The set of training positions splits into the two index lists. *)
Lemma positions_partition (y : list nat) :
  Forall (λ l, l ≤ 9) y →
  (∀ i, ¬ (i ∈ positions in_art y ∧ i ∈ positions in_nature y))
  ∧ (∀ i, i ∈ positions in_art y ∨ i ∈ positions in_nature y ↔ i < length y).
Proof.
  intros Hy. split.
  - intros i [Ha Hn]. apply elem_of_positions in Ha as (l & Hl & Ha).
    apply elem_of_positions in Hn as (l' & Hl' & Hn).
    assert (l' = l) as -> by congruence.
    apply art_not_nature in Ha. congruence.
  - intros i. rewrite !elem_of_positions. split.
    + intros [(l & Hl & _)|(l & Hl & _)]; by apply lookup_lt_Some in Hl.
    + intros Hi. destruct (lookup_lt_is_Some_2 y i Hi) as [l Hl].
      assert (l ≤ 9) as Hl9.
      { eapply (proj1 (Forall_forall _ _) Hy), list_elem_of_lookup_2, Hl. }
      pose proof (art_xor_nature l Hl9) as Hx.
      destruct (in_nature l) eqn:Hn; [right|left]; exists l; by rewrite ?Hx.
Qed.

(** C9: for label vectors with entries in 0..9, [artTrain] and
    [natureTrain] are disjoint and together hold every training position,
    and so do [artTest] and [natureTest] for the test positions. *)
Theorem art_nature_partition (y_train y_test : list nat) :
  Forall (λ l, l ≤ 9) y_train →
  Forall (λ l, l ≤ 9) y_test →
  ((∀ i, ¬ (i ∈ artTrain y_train ∧ i ∈ natureTrain y_train))
   ∧ (∀ i, i ∈ artTrain y_train ∨ i ∈ natureTrain y_train ↔ i < length y_train))
  ∧ ((∀ i, ¬ (i ∈ artTest y_test ∧ i ∈ natureTest y_test))
     ∧ (∀ i, i ∈ artTest y_test ∨ i ∈ natureTest y_test ↔ i < length y_test)).
Proof.
  intros Htrain Htest. split; by apply positions_partition.
Qed.

Lemma art_nature_partition_witness :
  (∀ i, ¬ (i ∈ artTrain [0; 3; 9; 5; 1; 7] ∧ i ∈ natureTrain [0; 3; 9; 5; 1; 7]))
  ∧ (∀ i, i ∈ artTest [8; 2; 4] ∨ i ∈ natureTest [8; 2; 4] ↔ i < 3).
Proof.
  destruct (art_nature_partition [0; 3; 9; 5; 1; 7] [8; 2; 4]) as [[H1 _] [_ H2]].
  - repeat (constructor; [lia|]). constructor.
  - repeat (constructor; [lia|]). constructor.
  - split; [exact H1 | exact H2].
Defined.

(** ** The two [Lambda] layers *)

Lemma mapM_lookup {A B} (f : A → option B) (l : list A) (k : list B) i :
  mapM f l = Some k → k !! i = l !! i ≫= f.
Proof.
  intros H. apply mapM_Some in H. revert i.
  induction H as [|x y l k Hxy _ IH]; intros [|i]; simpl; try done.
Qed.

Section TensorFacts.
Context {R : Type} `{!Num R}.
Implicit Types (t a b : list (list R)) (s : list (list (list R))).

Lemma dims2_length t n m : dims2 t = replicate n m → length t = n.
Proof.
  intros H. apply (f_equal length) in H.
  unfold dims2 in H. by rewrite length_fmap, length_replicate in H.
Qed.

Lemma dims2_lookup t n m i row :
  dims2 t = replicate n m → t !! i = Some row → length row = m.
Proof.
  intros H Hrow. apply (f_equal (λ d, d !! i)) in H.
  unfold dims2 in H. rewrite list_lookup_fmap, Hrow in H. simpl in H.
  symmetry in H. apply lookup_replicate in H as [-> _]. done.
Qed.

Lemma dims3_length s n m e : dims3 s = replicate n (replicate m e) → length s = n.
Proof.
  intros H. apply (f_equal length) in H.
  unfold dims3 in H. by rewrite length_fmap, length_replicate in H.
Qed.

Lemma dims3_lookup s n m e i rows :
  dims3 s = replicate n (replicate m e) → s !! i = Some rows →
  dims2 rows = replicate m e.
Proof.
  intros H Hrows. apply (f_equal (λ d, d !! i)) in H.
  unfold dims3 in H. rewrite list_lookup_fmap, Hrows in H. simpl in H.
  symmetry in H. apply lookup_replicate in H as [-> _]. done.
Qed.

(** *** Slices *)

Lemma slice2_Some k t n m :
  dims2 t = replicate n m → k < m →
  ∃ v, slice2 k t = Some v ∧ length v = n.
Proof.
  intros Ht Hk.
  destruct (mapM_is_Some_2 (λ row : list R, row !! k) t) as [v Hv].
  - apply Forall_forall. intros row Hrow. simpl.
    apply list_elem_of_lookup in Hrow as [i Hi].
    apply lookup_lt_is_Some_2. by rewrite (dims2_lookup _ _ _ _ _ Ht Hi).
  - exists v. split; [done|].
    apply length_mapM in Hv. rewrite <-Hv. eapply dims2_length, Ht.
Qed.

Lemma slice3_Some k s n m e :
  dims3 s = replicate n (replicate m e) → k < e →
  ∃ g, slice3 k s = Some g ∧ dims2 g = replicate n m.
Proof.
  intros Hs Hk.
  destruct (mapM_is_Some_2 (slice2 k) s) as [g Hg].
  - apply Forall_forall. intros rows Hrows. simpl.
    apply list_elem_of_lookup in Hrows as [i Hi].
    destruct (slice2_Some k rows m e) as (v & -> & _); [|done..].
    eapply dims3_lookup; eauto.
  - exists g. split; [done|].
    apply list_eq. intros i. unfold dims2. rewrite list_lookup_fmap.
    rewrite (mapM_lookup _ _ _ i Hg).
    destruct (s !! i) as [rows|] eqn:Hi; simpl.
    + destruct (slice2_Some k rows m e) as (v & Hv & Hlen); [|done|].
      { eapply dims3_lookup; eauto. }
      rewrite Hv. simpl. rewrite Hlen. symmetry.
      apply lookup_replicate_2. apply lookup_lt_Some in Hi.
      by rewrite (dims3_length _ _ _ _ Hs) in Hi.
    + symmetry. apply lookup_replicate_None.
      apply lookup_ge_None in Hi. by rewrite (dims3_length _ _ _ _ Hs) in Hi.
Qed.

Lemma slice2_at k v (t : list (list R)) i :
  slice2 k t = Some v → v !! i = at2 t i k.
Proof. intros H. by rewrite (mapM_lookup _ _ _ i H). Qed.

Lemma slice3_at k g s i c :
  slice3 k s = Some g → at2 g i c = at3 s i c k.
Proof.
  intros H. unfold at2, at3. rewrite (mapM_lookup _ _ _ i H).
  destruct (s !! i) as [rows|] eqn:Hi; simpl; [|done].
  apply mapM_Some in H.
  destruct (Forall2_lookup_l _ _ _ _ _ H Hi) as (v & _ & Hv).
  rewrite Hv. simpl. by rewrite (mapM_lookup _ _ _ c Hv).
Qed.
End TensorFacts.

Section Blend.
Context {R : Type} `{!Num R}.
Implicit Types (t a b : list (list R)) (s : list (list (list R))).

(** *** Element-wise operations *)

Lemma ew1_lookup {A B C} (op : A → B → C) (x : list A) (y : list B) z i :
  ew1 op x y = Some z →
  z !! i = (u ← x !! i; v ← y !! i; Some (op u v)).
Proof.
  unfold ew1. case_decide; [|done]. intros [= <-]. apply lookup_zip_with.
Qed.

Lemma ew2_at (op : R → R → R) a b c i j :
  ew2 op a b = Some c →
  at2 c i j = (x ← at2 a i j; y ← at2 b i j; Some (op x y)).
Proof.
  unfold ew2. case_decide as Hlen; [|done]. intros H. unfold at2.
  rewrite (mapM_lookup _ _ _ i H). rewrite lookup_zip_with.
  destruct (a !! i) as [ra|] eqn:Ha; simpl; [|done].
  destruct (b !! i) as [rb|] eqn:Hb; simpl.
  - apply mapM_Some in H.
    assert (zip a b !! i = Some (ra, rb)) as Hz.
    { rewrite lookup_zip_with, Ha, Hb. done. }
    destruct (Forall2_lookup_l _ _ _ _ _ H Hz) as (rc & _ & Hrc).
    simpl in Hrc. rewrite Hrc. simpl. apply (ew1_lookup _ _ _ _ j Hrc).
  - by destruct (ra !! j).
Qed.

Lemma ew2_Some (op : R → R → R) a b n m :
  dims2 a = replicate n m → dims2 b = replicate n m →
  ∃ c, ew2 op a b = Some c ∧ dims2 c = replicate n m.
Proof.
  intros Ha Hb.
  pose proof (dims2_length _ _ _ Ha) as Hla.
  pose proof (dims2_length _ _ _ Hb) as Hlb.
  assert (∀ i ra rb, a !! i = Some ra → b !! i = Some rb →
            ew1 op ra rb = Some (zip_with op ra rb)
            ∧ length (zip_with op ra rb) = m) as Hrow.
  { intros i ra rb Hra Hrb.
    pose proof (dims2_lookup _ _ _ _ _ Ha Hra).
    pose proof (dims2_lookup _ _ _ _ _ Hb Hrb).
    unfold ew1. rewrite decide_True by lia. split; [done|].
    rewrite length_zip_with. lia. }
  destruct (mapM_is_Some_2 (λ p : list R * list R, ew1 op p.1 p.2) (zip a b))
    as [c Hc].
  { apply Forall_forall. intros [ra rb] Hin. simpl.
    apply list_elem_of_lookup in Hin as [i Hi].
    apply lookup_zip_with_Some in Hi
      as (ra' & rb' & [= <- <-] & Hra & Hrb).
    destruct (Hrow i ra rb Hra Hrb) as [-> _]. done. }
  exists c. unfold ew2. rewrite decide_True by lia. split; [done|].
  apply list_eq. intros i. unfold dims2. rewrite list_lookup_fmap.
  rewrite (mapM_lookup _ _ _ i Hc). rewrite lookup_zip_with.
  destruct (a !! i) as [ra|] eqn:Hra; simpl.
  - destruct (lookup_lt_is_Some_2 b i) as [rb Hrb].
    { apply lookup_lt_Some in Hra. lia. }
    rewrite Hrb. simpl. destruct (Hrow i ra rb Hra Hrb) as [-> Hlen].
    simpl. rewrite Hlen. symmetry. apply lookup_replicate_2.
    apply lookup_lt_Some in Hra. lia.
  - symmetry. apply lookup_replicate_None. apply lookup_ge_None in Hra. lia.
Qed.

(** *** [K.switch] *)

Lemma switch_lookup (condition : list bool) a b out i (c : bool) :
  switch condition a b = Some out → condition !! i = Some c →
  out !! i = if c then a !! i else b !! i.
Proof.
  unfold switch. case_decide as Hd; [|done]. destruct Hd as [Hlen Hdims].
  intros [= <-] Hc. rewrite lookup_zip_with, Hc. simpl.
  rewrite lookup_zip_with.
  assert (length a = length b) as Hab.
  { apply (f_equal length) in Hdims. unfold dims2 in Hdims.
    by rewrite !length_fmap in Hdims. }
  destruct (lookup_lt_is_Some_2 a i) as [ra Hra].
  { apply lookup_lt_Some in Hc. lia. }
  destruct (lookup_lt_is_Some_2 b i) as [rb Hrb].
  { apply lookup_lt_Some in Hc. lia. }
  rewrite Hra, Hrb. simpl. by destruct c.
Qed.

Lemma switch_Some (condition : list bool) a b n m :
  length condition = n → dims2 a = replicate n m → dims2 b = replicate n m →
  ∃ out, switch condition a b = Some out ∧ dims2 out = replicate n m.
Proof.
  intros Hc Ha Hb.
  pose proof (dims2_length _ _ _ Ha) as Hla.
  pose proof (dims2_length _ _ _ Hb) as Hlb.
  unfold switch. rewrite decide_True; [|split; congruence].
  eexists. split; [done|].
  apply list_eq. intros i. unfold dims2.
  rewrite list_lookup_fmap, lookup_zip_with. rewrite lookup_zip_with.
  destruct (condition !! i) as [c|] eqn:Hci; simpl.
  - destruct (lookup_lt_is_Some_2 a i) as [ra Hra].
    { apply lookup_lt_Some in Hci. lia. }
    destruct (lookup_lt_is_Some_2 b i) as [rb Hrb].
    { apply lookup_lt_Some in Hci. lia. }
    rewrite Hra, Hrb. simpl.
    pose proof (dims2_lookup _ _ _ _ _ Ha Hra).
    pose proof (dims2_lookup _ _ _ _ _ Hb Hrb).
    symmetry. rewrite lookup_replicate. split; [by destruct c|].
    apply lookup_lt_Some in Hci. lia.
  - symmetry. apply lookup_replicate_None. apply lookup_ge_None in Hci. lia.
Qed.

(** *** [subGateLambda] *)

(** Entry by entry, the inner layer blends the base with the expert. *)
Lemma subGateLambda_at base expert subgate out i c :
  subGateLambda base expert subgate = Some out →
  at2 out i c
  = (b ← at2 base i c; s0 ← at3 subgate i c 0;
     e ← at2 expert i c; s1 ← at3 subgate i c 1;
     Some (radd (rmul b s0) (rmul e s1))).
Proof.
  unfold subGateLambda. intros H.
  destruct (slice3 0 subgate) as [g0|] eqn:Hg0; simpl in H; [|done].
  destruct (ew2 rmul base g0) as [p0|] eqn:Hp0; simpl in H; [|done].
  destruct (slice3 1 subgate) as [g1|] eqn:Hg1; simpl in H; [|done].
  destruct (ew2 rmul expert g1) as [p1|] eqn:Hp1; simpl in H; [|done].
  rewrite (ew2_at _ _ _ _ i c H), (ew2_at _ _ _ _ i c Hp0),
    (ew2_at _ _ _ _ i c Hp1), (slice3_at _ _ _ i c Hg0), (slice3_at _ _ _ i c Hg1).
  destruct (at2 base i c); simpl; [|done].
  destruct (at3 subgate i c 0); simpl; [|done].
  destruct (at2 expert i c); simpl; [|done].
  by destruct (at3 subgate i c 1).
Qed.

Lemma subGateLambda_Some base expert subgate n m e :
  dims2 base = replicate n m → dims2 expert = replicate n m →
  dims3 subgate = replicate n (replicate m e) → 2 ≤ e →
  ∃ out, subGateLambda base expert subgate = Some out
         ∧ dims2 out = replicate n m.
Proof.
  intros Hb He Hs Hk. unfold subGateLambda.
  destruct (slice3_Some 0 subgate n m e Hs) as (g0 & -> & Hg0); [lia|].
  simpl. destruct (ew2_Some rmul base g0 n m Hb Hg0) as (p0 & -> & Hp0).
  simpl. destruct (slice3_Some 1 subgate n m e Hs) as (g1 & -> & Hg1); [lia|].
  simpl. destruct (ew2_Some rmul expert g1 n m He Hg1) as (p1 & -> & Hp1).
  simpl. apply ew2_Some; done.
Qed.

(** *** The output layer *)

(** Whenever the layer computes a result, every row of it is the row of
    one of the two blends, chosen by the level-1 gate of that row. *)
Lemma output_rows base gate art nat artG natG out :
  output base gate art nat artG natG = Some out →
  ∃ a n, subGateLambda base art artG = Some a
         ∧ subGateLambda base nat natG = Some n
         ∧ ∀ i g0 g1, gate !! i = Some [g0; g1] →
             out !! i = if rgt g0 g1 then a !! i else n !! i.
Proof.
  unfold output. intros H.
  destruct (slice2 0 gate) as [c0|] eqn:Hc0; simpl in H; [|done].
  destruct (slice2 1 gate) as [c1|] eqn:Hc1; simpl in H; [|done].
  destruct (greater c0 c1) as [cond|] eqn:Hcond; simpl in H; [|done].
  destruct (subGateLambda base art artG) as [a|]; simpl in H; [|done].
  destruct (subGateLambda base nat natG) as [n|]; simpl in H; [|done].
  exists a, n. do 2 (split; [done|]). intros i g0 g1 Hg.
  apply (switch_lookup _ _ _ _ i (rgt g0 g1) H).
  unfold greater in Hcond. rewrite (ew1_lookup _ _ _ _ i Hcond).
  rewrite (slice2_at _ _ _ i Hc0), (slice2_at _ _ _ i Hc1).
  unfold at2. rewrite Hg. done.
Qed.

Lemma output_Some base gate art nat artG natG n :
  dims2 base = replicate n 10 → dims2 gate = replicate n 2 →
  dims2 art = replicate n 10 → dims2 nat = replicate n 10 →
  dims3 artG = replicate n (replicate 10 2) →
  dims3 natG = replicate n (replicate 10 2) →
  ∃ out, output base gate art nat artG natG = Some out
         ∧ dims2 out = replicate n 10.
Proof.
  intros Hb Hg Ha Hn HaG HnG. unfold output.
  destruct (slice2_Some 0 gate n 2 Hg) as (c0 & -> & Hc0); [lia|]. simpl.
  destruct (slice2_Some 1 gate n 2 Hg) as (c1 & -> & Hc1); [lia|]. simpl.
  unfold greater, ew1. rewrite decide_True by lia. simpl.
  destruct (subGateLambda_Some base art artG n 10 2) as (a & -> & Hda); try done.
  destruct (subGateLambda_Some base nat natG n 10 2) as (b & -> & Hdb); try done.
  simpl. apply switch_Some; [|done..].
  rewrite length_zip_with. lia.
Qed.
End Blend.

Section Routing.
Context {R : Type} `{!Num R}.
Implicit Types (t a b : list (list R)) (s : list (list (list R))).

Lemma gate_rows_pair gate n i :
  dims2 gate = replicate n 2 → i < n → ∃ g0 g1 : R, gate !! i = Some [g0; g1].
Proof.
  intros Hg Hi. destruct (lookup_lt_is_Some_2 gate i) as [row Hrow].
  { by rewrite (dims2_length _ _ _ Hg). }
  pose proof (dims2_lookup _ _ _ _ _ Hg Hrow) as Hlen.
  destruct row as [|g0 [|g1 [|]]]; try done. by exists g0, g1.
Qed.

(** C1: the output layer routes every example by the level-1 gate: the
    row of the artificial blend when the gate's first output strictly
    exceeds its second, the row of the natural blend otherwise; every
    entry of the row is the blend of the base with the chosen expert,
    and the output of the expert that was not chosen (and of its
    sub-gate) has no influence on that row. *)
Theorem hard_routing n base gate art nat artG natG :
  dims2 base = replicate n 10 → dims2 gate = replicate n 2 →
  dims2 art = replicate n 10 → dims2 nat = replicate n 10 →
  dims3 artG = replicate n (replicate 10 2) →
  dims3 natG = replicate n (replicate 10 2) →
  ∃ out a b,
    output base gate art nat artG natG = Some out
    ∧ subGateLambda base art artG = Some a
    ∧ subGateLambda base nat natG = Some b
    ∧ dims2 out = replicate n 10
    ∧ (∀ i, i < n → ∃ g0 g1, gate !! i = Some [g0; g1])
    ∧ (∀ i g0 g1, gate !! i = Some [g0; g1] →
         out !! i = if rgt g0 g1 then a !! i else b !! i)
    ∧ (∀ i c g0 g1, gate !! i = Some [g0; g1] →
         at2 out i c
         = if rgt g0 g1
           then (x ← at2 base i c; s0 ← at3 artG i c 0;
                 e ← at2 art i c; s1 ← at3 artG i c 1;
                 Some (radd (rmul x s0) (rmul e s1)))
           else (x ← at2 base i c; s0 ← at3 natG i c 0;
                 e ← at2 nat i c; s1 ← at3 natG i c 1;
                 Some (radd (rmul x s0) (rmul e s1))))
    ∧ (∀ i g0 g1 nat' natG' out',
         gate !! i = Some [g0; g1] → rgt g0 g1 = true →
         output base gate art nat' artG natG' = Some out' →
         out' !! i = out !! i)
    ∧ (∀ i g0 g1 art' artG' out',
         gate !! i = Some [g0; g1] → rgt g0 g1 = false →
         output base gate art' nat artG' natG = Some out' →
         out' !! i = out !! i).
Proof.
  intros Hb Hg Ha Hn HaG HnG.
  destruct (output_Some base gate art nat artG natG n) as (out & Hout & Hd);
    try done.
  destruct (output_rows _ _ _ _ _ _ _ Hout) as (a & b & Hsa & Hsb & Hrows).
  exists out, a, b. repeat (split; [done|]).
  split; [intros i Hi; by eapply gate_rows_pair|].
  split; [done|]. split.
  { intros i c g0 g1 Hi. unfold at2 at 1. rewrite (Hrows i g0 g1 Hi).
    destruct (rgt g0 g1).
    - apply (subGateLambda_at _ _ _ _ i c Hsa).
    - apply (subGateLambda_at _ _ _ _ i c Hsb). }
  split.
  - intros i g0 g1 nat' natG' out' Hi Hgt Hout'.
    destruct (output_rows _ _ _ _ _ _ _ Hout') as (a' & b' & Hsa' & _ & Hrows').
    rewrite (Hrows i g0 g1 Hi), (Hrows' i g0 g1 Hi), Hgt. congruence.
  - intros i g0 g1 art' artG' out' Hi Hgt Hout'.
    destruct (output_rows _ _ _ _ _ _ _ Hout') as (a' & b' & _ & Hsb' & Hrows').
    rewrite (Hrows i g0 g1 Hi), (Hrows' i g0 g1 Hi), Hgt. congruence.
Qed.

(** *** [Reshape] *)

Lemma chunks_lookup rows cols (v : list R) c :
  c < rows → chunks rows cols v !! c = Some (take cols (drop (c * cols) v)).
Proof.
  revert v c. induction rows as [|rows IH]; intros v c Hc; [lia|].
  destruct c as [|c]; simpl; [done|].
  rewrite IH by lia. by rewrite drop_drop.
Qed.

Lemma length_chunks rows cols (v : list R) : length (chunks rows cols v) = rows.
Proof. revert v. induction rows; intros; simpl; auto. Qed.

Lemma Reshape_apply_Some rows cols (t : list (list R)) n :
  dims2 t = replicate n (rows * cols) →
  ∃ s, Reshape_apply rows cols t = Some s
       ∧ dims3 s = replicate n (replicate rows cols)
       ∧ ∀ i c k, c < rows → k < cols → at3 s i c k = at2 t i (c * cols + k).
Proof.
  intros Ht.
  assert (∀ i v, t !! i = Some v →
            reshape_row rows cols v = Some (chunks rows cols v)) as Hrow.
  { intros i v Hv. unfold reshape_row.
    by rewrite decide_True by (eapply dims2_lookup; eauto). }
  destruct (mapM_is_Some_2 (reshape_row rows cols) t) as [s Hs].
  { apply Forall_forall. intros v Hin. simpl.
    apply list_elem_of_lookup in Hin as [i Hi]. by rewrite (Hrow i v Hi). }
  exists s. split; [done|]. split.
  - apply list_eq. intros i. unfold dims3.
    rewrite list_lookup_fmap, (mapM_lookup _ _ _ i Hs).
    destruct (t !! i) as [v|] eqn:Hv; simpl.
    + rewrite (Hrow i v Hv). simpl. symmetry.
      rewrite lookup_replicate. split.
      2:{ apply lookup_lt_Some in Hv. by rewrite (dims2_length _ _ _ Ht) in Hv. }
      pose proof (dims2_lookup _ _ _ _ _ Ht Hv) as Hlen.
      apply list_eq. intros c. unfold dims2. rewrite list_lookup_fmap.
      destruct (decide (c < rows)) as [Hc|Hc].
      * rewrite chunks_lookup by done. simpl.
        rewrite lookup_replicate_2 by done. f_equal.
        rewrite length_take, length_drop. nia.
      * rewrite (proj1 (lookup_replicate_None _ _ _)) by lia.
        rewrite (proj2 (lookup_ge_None _ _)); [done|].
        rewrite length_chunks. lia.
    + symmetry. apply lookup_replicate_None.
      apply lookup_ge_None in Hv. by rewrite (dims2_length _ _ _ Ht) in Hv.
  - intros i c k Hc Hk. unfold at3, at2.
    rewrite (mapM_lookup _ _ _ i Hs).
    destruct (t !! i) as [v|] eqn:Hv; simpl; [|done].
    rewrite (Hrow i v Hv). simpl. rewrite chunks_lookup by done. simpl.
    rewrite lookup_take_lt by done. by rewrite lookup_drop.
Qed.

Lemma at2_is_Some t n m i c :
  dims2 t = replicate n m → i < n → c < m → is_Some (at2 t i c).
Proof.
  intros Ht Hi Hc. unfold at2.
  destruct (lookup_lt_is_Some_2 t i) as [row Hrow].
  { by rewrite (dims2_length _ _ _ Ht). }
  rewrite Hrow. simpl. apply lookup_lt_is_Some_2.
  by rewrite (dims2_lookup _ _ _ _ _ Ht Hrow).
Qed.
End Routing.

(** ** The graph *)

Example normpath_try : normpath "./baseCifar10/" = normpath "baseCifar10".
Proof. reflexivity. Qed.

(** Without cell 51 the mixture's [compile] would collect the weights of
    all four trained models as well. *)
Example compile_without_freeze :
  (λ r, length <$> m_collected r.1)
    <$> (n ← define_architectures small; mix ← connect n; compile (model mix)) ∅
  = Some (Some 28).
Proof. vm_compute. reflexivity. Qed.

Example graph_program_small :
  (λ r, (m_layers (artificialModel r.1.1), t_shape (artGate r.1.2),
         m_collected (model r.1.2), size r.2))
    <$> graph_program small ∅
  = Some (["input"; "artificial0"; "artificial1"; "artificial2"; "artificial3";
           "artificial4"; "artificial5"; "artificial6"; "artificial7";
           "artificial8"; "artificial9"; "artificial10"; "artificial11"],
          [10; 2],
          Some ["artExpertGate1"; "artExpertGate3";
                "natureExpertGate1"; "natureExpertGate3"],
          60).
Proof. vm_compute. reflexivity. Qed.

Lemma graph_program_facts f :
  ∃ n mix g, graph_program f ∅ = Some ((n, mix), g) ∧ graph_facts n mix g.
Proof.
  assert ((λ r, bool_decide (graph_facts r.1.1 r.1.2 r.2)) <$> graph_program f ∅
          = Some true) as H.
  { destruct f as [[] [] []]; vm_compute; reflexivity. }
  destruct (graph_program f ∅) as [[[n mix] g]|]; simpl in H; [|done].
  injection H as H. apply bool_decide_eq_true in H. by exists n, mix, g.
Qed.

(** ** Claims on the mixture's arithmetic and on its graph *)

Section SoftBlend.
Context {R : Type} `{!Num R}.

(** C2: the blend of a branch is, class by class,
    [base[c] * subgate[c, 0] + expert[c] * subgate[c, 1]], where
    [subgate] is the (10, 2) reshape of the 20 softmax units of the
    branch's sub-gate network, so that [subgate[c, k]] is unit
    [2 * c + k]; in the graph the last two layers of either sub-gate
    are that softmax layer and that reshape. *)
Theorem soft_blend n (base expert units : list (list R)) :
  dims2 base = replicate n 10 →
  dims2 expert = replicate n 10 →
  dims2 units = replicate n 20 →
  ∃ subgate out,
    Reshape_apply 10 2 units = Some subgate
    ∧ subGateLambda base expert subgate = Some out
    ∧ dims2 out = replicate n 10
    ∧ (∀ i c, i < n → c < 10 →
         ∃ b e s0 s1,
           at2 base i c = Some b ∧ at2 expert i c = Some e
           ∧ at3 subgate i c 0 = Some s0 ∧ at3 subgate i c 1 = Some s1
           ∧ at2 units i (2 * c) = Some s0 ∧ at2 units i (2 * c + 1) = Some s1
           ∧ at2 out i c = Some (radd (rmul b s0) (rmul e s1)))
    ∧ (∀ f, ∃ nets mix g,
         graph_program f ∅ = Some ((nets, mix), g)
         ∧ (t_shape (artGate mix), t_shape (natureGate mix))
           = ([10; 2], [10; 2])
         ∧ (t_history (artGate mix), t_history (natureGate mix))
           = ("input" :: layer_names "artExpertGate" 5,
              "input" :: layer_names "natureExpertGate" 5)
         ∧ (λ nm, kind <$> g !! nm)
             <$> ["artExpertGate3"; "artExpertGate4";
                  "natureExpertGate3"; "natureExpertGate4"]
           = [Some (Dense 20 softmax); Some (Reshape [10; 2]);
              Some (Dense 20 softmax); Some (Reshape [10; 2])]).
Proof.
  intros Hb He Hu.
  destruct (Reshape_apply_Some 10 2 units n Hu) as (subgate & Hs & Hds & Hat).
  destruct (subGateLambda_Some base expert subgate n 10 2 Hb He Hds)
    as (out & Hout & Hdo); [lia|].
  exists subgate, out. repeat (split; [done|]). split.
  - intros i c Hi Hc.
    destruct (at2_is_Some base n 10 i c Hb Hi Hc) as [b Hbv].
    destruct (at2_is_Some expert n 10 i c He Hi Hc) as [e Hev].
    destruct (at2_is_Some units n 20 i (2 * c) Hu Hi) as [s0 Hs0]; [lia|].
    destruct (at2_is_Some units n 20 i (2 * c + 1) Hu Hi) as [s1 Hs1]; [lia|].
    exists b, e, s0, s1.
    assert (at3 subgate i c 0 = Some s0) as H0.
    { rewrite Hat by lia. rewrite <-Hs0. f_equal. lia. }
    assert (at3 subgate i c 1 = Some s1) as H1.
    { rewrite Hat by lia. rewrite <-Hs1. f_equal. lia. }
    repeat (split; [done|]).
    rewrite (subGateLambda_at _ _ _ _ i c Hout), Hbv, H0, Hev, H1. done.
  - intros f. destruct (graph_program_facts f) as (nets & mix & g & Hg & Hf).
    exists nets, mix, g. split; [done|].
    destruct Hf as (_ & Hsh & _ & Hl & Hh & _).
    split; [by injection Hsh as -> -> _|]. done.
Qed.
End SoftBlend.

(** C10, as amended: whatever the size flags, both experts end, like
    the baseline, in a softmax layer of [orig_classes] = 10 units, so
    the sub-models that enter the blend give vectors of length 10; the
    level-1 gate, which feeds the mixture too, gives a vector of length
    [gate0_classes] = 2.  The experts' training targets are one-hot rows
    of width 10, with the one at the position of the label, although
    their labels come from a subset of the classes; and on batches of
    these shapes the blend of [subGateLambda] is defined and again of
    width 10. *)
Theorem experts_full_softmax (f : Flags) :
  ∃ n mix g,
    graph_program f ∅ = Some ((n, mix), g)
    ∧ (t_shape (baseVGG n), t_shape (artificialVGG n), t_shape (naturalVGG n))
      = ([orig_classes], [orig_classes], [orig_classes])
    ∧ t_shape (gate0VGG n) = [gate0_classes]
    ∧ (λ t, kind <$> (last (t_history t) ≫= λ nm, g !! nm))
        <$> [baseVGG n; artificialVGG n; naturalVGG n]
      = [Some (Dense orig_classes softmax); Some (Dense orig_classes softmax);
         Some (Dense orig_classes softmax)]
    ∧ (∀ (R : Type) (HR : Num R) (y : list nat),
         to_categorical (R:=R) (filter (λ l, in_art l = true) y) orig_classes
         = Some (one_hot orig_classes <$> filter (λ l, in_art l = true) y)
         ∧ to_categorical (R:=R) (filter (λ l, in_nature l = true) y) orig_classes
           = Some (one_hot orig_classes <$> filter (λ l, in_nature l = true) y)
         ∧ (∀ l, length (one_hot (R:=R) orig_classes l) = orig_classes)
       ∧ ∀ l, l < orig_classes → one_hot (R:=R) orig_classes l !! l = Some r1)
    ∧ (t_shape (artGate mix), t_shape (natureGate mix))
      = ([orig_classes; 2], [orig_classes; 2])
    ∧ (∀ (R : Type) (HR : Num R) B (base art nat : list (list R)) artG natG,
         dims2 base = replicate B orig_classes →
         dims2 art = replicate B orig_classes →
         dims2 nat = replicate B orig_classes →
         dims3 artG = replicate B (replicate orig_classes 2) →
         dims3 natG = replicate B (replicate orig_classes 2) →
         ∃ a b, subGateLambda base art artG = Some a
                ∧ subGateLambda base nat natG = Some b
                ∧ dims2 a = replicate B orig_classes
                ∧ dims2 b = replicate B orig_classes).
Proof.
  destruct (graph_program_facts f) as (n & mix & g & Hg & Hf).
  exists n, mix, g. split; [done|].
  destruct Hf as (Hsh & Hgsh & Hl & _).
  injection Hsh as Hb Hg0 Ha Hn. injection Hgsh as HaG HnG _.
  injection Hl as Hlb _ Hla Hln.
  split; [by rewrite Hb, Ha, Hn|]. split; [done|].
  split; [simpl; by rewrite Hlb, Hla, Hln|].
  split.
  - intros R HR y. split; [|split; [|split]].
    + apply to_categorical_Some, Forall_forall.
      intros l Hl. apply list_elem_of_filter in Hl as [Hl _]. by apply in_art_lt.
    + apply to_categorical_Some, Forall_forall.
      intros l Hl. apply list_elem_of_filter in Hl as [Hl _]. by apply in_nature_lt.
    + intros l. unfold one_hot. by rewrite length_insert, length_replicate.
    + intros l Hl. unfold one_hot. apply list_lookup_insert_eq.
      by rewrite length_replicate.
  - split; [by rewrite HaG, HnG|].
    intros R HR B base art nat artG natG Hbase Hart Hnat HartG HnatG.
    destruct (subGateLambda_Some base art artG B 10 2) as (a & Hsa & Hda);
      [done..|lia|].
    destruct (subGateLambda_Some base nat natG B 10 2) as (b & Hsb & Hdb);
      [done..|lia|].
    by exists a, b.
Qed.

(** The claim C10 as it is written fails on the level-1 gate: with the
    small networks, not every sub-model that feeds the mixture gives a
    vector of length 10. *)
Lemma experts_full_softmax_counterexample :
  ∃ n mix g,
    graph_program small ∅ = Some ((n, mix), g)
    ∧ ¬ Forall (λ t, t_shape t = [orig_classes])
          [baseVGG n; gate0VGG n; artificialVGG n; naturalVGG n].
Proof.
  destruct (graph_program_facts small) as (n & mix & g & Hg & Hf).
  exists n, mix, g. split; [done|].
  destruct Hf as (Hsh & _). injection Hsh as _ Hg0 _ _.
  intros Hall. apply Forall_cons in Hall as [_ Hall].
  apply Forall_cons in Hall as [Hgate _]. rewrite Hg0 in Hgate. done.
Qed.

(** C3: the mixture has one output of 10 classes; every layer of the
    baseline, of the level-1 gate and of the two experts is a layer of
    the mixture; on a batch its output layer yields one row of width 10
    per example; and the result really depends on each of the four
    sub-model outputs: changing any one of them alone can change the
    prediction. *)
Theorem mixture_combines_four (f : Flags) :
  ∃ n mix g,
    graph_program f ∅ = Some ((n, mix), g)
    ∧ m_output_shape (model mix) = [orig_classes]
    ∧ (∀ nm, nm ∈ pretrained_layers n → nm ∈ m_layers (model mix))
    ∧ (t_shape (baseVGG n), t_shape (gate0VGG n),
       t_shape (artificialVGG n), t_shape (naturalVGG n),
       t_shape (artGate mix), t_shape (natureGate mix))
      = ([orig_classes], [gate0_classes], [orig_classes], [orig_classes],
         [orig_classes; 2], [orig_classes; 2])
    ∧ (∀ (R : Type) (HR : Num R) B (base gate art nat : list (list R)) artG natG,
         dims2 base = replicate B orig_classes →
         dims2 gate = replicate B gate0_classes →
         dims2 art = replicate B orig_classes →
         dims2 nat = replicate B orig_classes →
         dims3 artG = replicate B (replicate orig_classes 2) →
         dims3 natG = replicate B (replicate orig_classes 2) →
         ∃ out, output base gate art nat artG natG = Some out
                ∧ dims2 out = replicate B orig_classes)
    ∧ (∃ (base base' gate art nat : list (list Z)) artG natG out out',
         output base gate art nat artG natG = Some out
         ∧ output base' gate art nat artG natG = Some out' ∧ out ≠ out')
    ∧ (∃ (base gate gate' art nat : list (list Z)) artG natG out out',
         output base gate art nat artG natG = Some out
         ∧ output base gate' art nat artG natG = Some out' ∧ out ≠ out')
    ∧ (∃ (base gate art art' nat : list (list Z)) artG natG out out',
         output base gate art nat artG natG = Some out
         ∧ output base gate art' nat artG natG = Some out' ∧ out ≠ out')
    ∧ (∃ (base gate art nat nat' : list (list Z)) artG natG out out',
         output base gate art nat artG natG = Some out
         ∧ output base gate art nat' artG natG = Some out' ∧ out ≠ out').
Proof.
  destruct (graph_program_facts f) as (n & mix & g & Hg & Hf).
  exists n, mix, g. split; [done|].
  destruct Hf as (Hsh & Hgsh & _ & _ & _ & Hm & _ & _ & Hin & _).
  injection Hsh as Hb Hg0 Ha Hn. injection Hgsh as HaG HnG _.
  split; [by injection Hm as _ _ _ _ _ _ _ _ _ ->|]. split.
  { intros nm Hnm. rewrite forallb_forall in Hin.
    apply list_elem_of_In, Hin, bool_decide_eq_true in Hnm. done. }
  split; [by rewrite Hb, Hg0, Ha, Hn, HaG, HnG|].
  split.
  { intros R HR B base gate art nat artG natG. intros.
    by apply output_Some. }
  pose (ones := [replicate 10 1%Z]). pose (twos := [replicate 10 2%Z]).
  pose (half := [replicate 10 [1%Z; 1%Z]]).
  split; [|split; [|split]].
  - exists ones, twos, [[1; 0]]%Z, ones, ones, half, half. eexists _, _.
    split; [vm_compute; reflexivity|]. split; [vm_compute; reflexivity|]. done.
  - exists ones, [[1; 0]]%Z, [[0; 1]]%Z, ones, twos, half, half. eexists _, _.
    split; [vm_compute; reflexivity|]. split; [vm_compute; reflexivity|]. done.
  - exists ones, [[1; 0]]%Z, ones, twos, ones, half, half. eexists _, _.
    split; [vm_compute; reflexivity|]. split; [vm_compute; reflexivity|]. done.
  - exists ones, [[0; 1]]%Z, ones, ones, twos, half, half. eexists _, _.
    split; [vm_compute; reflexivity|]. split; [vm_compute; reflexivity|]. done.
Qed.

(** ** Checkpoints *)

Section SortedFacts.
Context {A : Type} (key : A → Z).

Lemma insert_sorted_Permutation x l : insert_sorted key x l ≡ₚ x :: l.
Proof.
  induction l as [|y l IH]; simpl; [done|].
  case_decide; [done|]. rewrite IH. apply Permutation_swap.
Qed.

Lemma sorted_Permutation l : sorted key l ≡ₚ l.
Proof.
  induction l as [|x l IH]; simpl; [done|].
  by rewrite insert_sorted_Permutation, IH.
Qed.

Lemma last_insert_sorted x l m :
  last l = Some m → Forall (λ y, (key y ≤ key m)%Z) l →
  last (insert_sorted key x l)
  = Some (if decide (key x ≤ key m)%Z then m else x).
Proof.
  induction l as [|y l IH]; intros Hlast Hmax; [done|].
  apply Forall_cons in Hmax as [Hy Hmax]. simpl.
  destruct l as [|z l].
  - injection Hlast as ->. simpl. by repeat case_decide.
  - change (last (y :: z :: l)) with (last (z :: l)) in Hlast.
    specialize (IH Hlast Hmax).
    destruct (decide (key x ≤ key y)%Z) as [Hxy|Hxy].
    + rewrite decide_True by lia. exact Hlast.
    + change (last (y :: insert_sorted key x (z :: l)))
        with (match insert_sorted key x (z :: l) with
              | [] => Some y
              | _ :: _ => last (insert_sorted key x (z :: l))
              end).
      destruct (insert_sorted key x (z :: l)) eqn:E; [|exact IH].
      simpl in E. by case_decide.
Qed.

(** The last entry of the sorted list is the last entry of greatest key. *)
Lemma last_sorted l :
  l ≠ [] →
  ∃ before x after,
    l = before ++ x :: after
    ∧ last (sorted key l) = Some x
    ∧ Forall (λ y, (key y ≤ key x)%Z) before
    ∧ Forall (λ y, (key y < key x)%Z) after.
Proof.
  induction l as [|a l IH]; intros Hne; [done|].
  destruct l as [|b l].
  { exists [], a, []. by repeat split. }
  destruct IH as (before & m & after & Hl & Hlast & Hb & Ha); [done|].
  assert (Forall (λ y, (key y ≤ key m)%Z) (sorted key (b :: l))) as Hmax.
  { rewrite sorted_Permutation, Hl. apply Forall_app. split; [done|].
    apply Forall_cons. split; [lia|].
    eapply Forall_impl; [exact Ha|]. simpl. intros. lia. }
  change (sorted key (a :: b :: l))
    with (insert_sorted key a (sorted key (b :: l))).
  rewrite (last_insert_sorted a _ m Hlast Hmax).
  destruct (decide (key a ≤ key m)%Z) as [Ham|Ham].
  - exists (a :: before), m, after. rewrite Hl. repeat split; try done.
    by apply Forall_cons.
  - exists [], a, (b :: l). repeat split; try done.
    rewrite Hl. apply Forall_app. split.
    + eapply Forall_impl; [exact Hb|]. simpl. intros. lia.
    + apply Forall_cons. split; [lia|].
      eapply Forall_impl; [exact Ha|]. simpl. intros. lia.
Qed.
End SortedFacts.

(** Sorting the pairs [(f, key f)] by their second component. *)
Lemma last_sorted_pairs {B} (key : B → Z) (l : list B) :
  l ≠ [] →
  ∃ before x after,
    l = before ++ x :: after
    ∧ last (sorted snd ((λ f, (f, key f)) <$> l)) = Some (x, key x)
    ∧ Forall (λ y, (key y ≤ key x)%Z) before
    ∧ Forall (λ y, (key y < key x)%Z) after.
Proof.
  intros Hne.
  destruct (last_sorted (A:=B * Z) snd ((λ f, (f, key f)) <$> l))
    as (before & x & after & Hl & Hlast & Hb & Ha).
  { by destruct l. }
  apply fmap_app_inv in Hl as (l1 & l2' & -> & Hl2 & ->).
  symmetry in Hl2. apply fmap_cons_inv in Hl2 as (f & l2 & -> & -> & ->).
  exists l1, f, l2. split; [done|]. split; [done|].
  rewrite Forall_fmap in Hb. rewrite Forall_fmap in Ha. done.
Qed.

Section Checkpoints.
Context {R : Type} `{!Num R} {W Image : Type}.
Implicit Types (w : World R W Image) (f : File W).

Lemma getNewestModel_cases model dirname w :
  match default [] (fs w !! normpath dirname) with
  | [] => getNewestModel model dirname w = Some (model, w)
  | found =>
      ∃ before f after,
        found = before ++ f :: after
        ∧ Forall (λ f', (mtime f' ≤ mtime f)%Z) before
        ∧ Forall (λ f', (mtime f' < mtime f)%Z) after
        ∧ getNewestModel model dirname w
          = match load_weights model f w with
            | Some (_, w') => Some (model, w')
            | None => None
            end
  end.
Proof.
  unfold getNewestModel, glob, mbind, NB_bind.
  destruct (default [] (fs w !! normpath dirname)) as [|f0 found] eqn:E.
  { reflexivity. }
  destruct (last_sorted_pairs mtime (f0 :: found))
    as (before & f & after & Hl & Hlast & Hb & Ha); [done|].
  exists before, f, after. rewrite <-Hl.
  split; [done|]. split; [done|]. split; [done|].
  rewrite decide_False by (by rewrite length_fmap).
  unfold lift. rewrite Hlast. simpl.
  by destruct (load_weights model f w) as [[[] w']|].
Qed.

(** C8: when [glob] finds nothing in the directory the model comes back
    and nothing changed; otherwise the entry of greatest modification
    time is chosen (among entries of equal time, the one listed last):
    when it is a checkpoint of the model, the model comes back with the
    weights read from it loaded, and when it is not, [load_weights]
    raises. *)
Theorem getNewestModel_newest model dirname w :
  match default [] (fs w !! normpath dirname) with
  | [] => getNewestModel model dirname w = Some (model, w)
  | found =>
      ∃ before f after,
        found = before ++ f :: after
        ∧ Forall (λ f', (mtime f' ≤ mtime f)%Z) found
        ∧ Forall (λ f', (mtime f' < mtime f)%Z) after
        ∧ match saved f model with
          | Some read =>
              ∃ w',
                getNewestModel model dirname w = Some (model, w')
                ∧ load_weights model f w = Some ((), w')
                ∧ (graph w', fs w', log w') = (graph w, fs w, log w)
                ∧ ∀ n, weights w' n
                       = if decide (n ∈ m_layers model)
                         then default (weights w n) (read !! n)
                         else weights w n
          | None => getNewestModel model dirname w = None
          end
  end.
Proof.
  pose proof (getNewestModel_cases model dirname w) as H.
  destruct (default [] (fs w !! normpath dirname)) as [|f0 found]; [done|].
  destruct H as (before & f & after & Hl & Hb & Ha & Hget).
  exists before, f, after. split; [done|]. split.
  { rewrite Hl. apply Forall_app. split; [done|]. apply Forall_cons.
    split; [lia|]. eapply Forall_impl; [exact Ha|]. simpl. intros. lia. }
  split; [done|]. rewrite Hget. unfold load_weights.
  destruct (saved f model) as [read|]; [|done].
  eexists. split; [reflexivity|]. split; [reflexivity|]. done.
Qed.

(** On a directory whose entries are all checkpoints of the model. *)
Lemma getNewestModel_frame model dirname w :
  Forall (loadable model) (default [] (fs w !! normpath dirname)) →
  ∃ w', getNewestModel model dirname w = Some (model, w')
        ∧ graph w' = graph w ∧ log w' = log w ∧ fs w' = fs w
        ∧ ∀ n, n ∉ m_layers model → weights w' n = weights w n.
Proof.
  intros Hall. pose proof (getNewestModel_cases model dirname w) as H.
  destruct (default [] (fs w !! normpath dirname)) as [|f0 found]; [by exists w|].
  destruct H as (before & f & after & Hl & _ & _ & Hget).
  assert (loadable model f) as [read Hread].
  { apply (proj1 (Forall_forall _ _) Hall). rewrite Hl.
    rewrite elem_of_app, elem_of_cons. auto. }
  rewrite Hget. unfold load_weights. rewrite Hread.
  eexists. split; [reflexivity|]. simpl. do 3 (split; [done|]).
  intros n Hn. by rewrite decide_False.
Qed.
End Checkpoints.

(** ** The run of the notebook *)

Lemma graph_program_steps f n mix g :
  graph_program f ∅ = Some ((n, mix), g) →
  ∃ n0 g1 g2 mix0,
    define_architectures f ∅ = Some (n0, g1)
    ∧ compile_all n0 g1 = Some (n, g1)
    ∧ freeze_all n g1 = Some ((), g2)
    ∧ connect n g2 = Some (mix0, g)
    ∧ compile_mixture mix0 g = Some (mix, g).
Proof.
  unfold graph_program, mbind, G_bind.
  destruct (define_architectures f ∅) as [[n0 g1]|] eqn:Hd; [|done].
  destruct (compile_all n0 g1) as [[n1 g1']|] eqn:Hc; [|done].
  assert (g1' = g1) as -> by (by injection Hc).
  destruct (freeze_all n1 g1) as [[[] g2]|] eqn:Hf; [|done].
  destruct (connect n1 g2) as [[mix0 g3]|] eqn:Hn; [|done].
  destruct (compile_mixture mix0 g3) as [[mix1 g3']|] eqn:Hm; [|done].
  assert (g3' = g3) as -> by (by injection Hm).
  intros [= <- <- <-]. by exists n0, g1, g2, mix0.
Qed.

Section Run.
Context {R : Type} `{!Num R} {W Image : Type}.
Context (optimizer : Model → (string → W) → list Image → list (list R) →
                     list Image * list (list R) → string → W).
Context (checkpointed : Model → (string → W) → list Image → list (list R) →
                        list Image * list (list R) → list (File W) → list (File W)).
Context (scale : Image → Image).
Implicit Types (w : World R W Image).

Lemma runs_bind {A B} (m : NB R W Image A) (k : A → NB R W Image B) w Q :
  runs m w (λ a w', runs (k a) w' Q) → runs (m ≫= k) w Q.
Proof.
  intros (a & w' & Hm & b & w'' & Hk & HQ). exists b, w''.
  split; [|done]. unfold mbind, NB_bind. by rewrite Hm.
Qed.

Lemma runs_ret {A} (a : A) w (Q : A → World R W Image → Prop) :
  Q a w → runs (mret a) w Q.
Proof. intros HQ. by exists a, w. Qed.

Lemma runs_lift {A} (o : option A) a w (Q : A → World R W Image → Prop) :
  o = Some a → Q a w → runs (lift o) w Q.
Proof. intros -> HQ. by exists a, w. Qed.

Lemma runs_liftG {A} (m : G A) a g' w (Q : A → World R W Image → Prop) :
  m (graph w) = Some (a, g') →
  (∀ w', graph w' = g' → log w' = log w → fs w' = fs w → Q a w') →
  runs (liftG m) w Q.
Proof.
  intros Hm HQ. unfold runs, liftG. rewrite Hm.
  eexists _, _. split; [done|]. by apply HQ.
Qed.

Lemma runs_rmtree {A} d (k : () → NB R W Image A) w Q :
  runs (k ()) {| graph := graph w; weights := weights w;
                 fs := delete (normpath d) (fs w); log := log w |} Q →
  runs (rmtree d ≫= k) w Q.
Proof. intros H. apply runs_bind. by eexists _, _. Qed.

Lemma runs_ensure_dir d w (Q : () → World R W Image → Prop) :
  fs w !! normpath d = None →
  (∀ w', graph w' = graph w → log w' = log w →
         fs w' = <[normpath d := []]> (fs w) → Q () w') →
  runs (ensure_dir d) w Q.
Proof.
  intros Hd HQ. eexists _, _. split; [done|]. apply HQ; simpl; try done.
  by rewrite Hd.
Qed.

(** On an empty directory [getNewestModel] changes nothing; on a
    directory of checkpoints of the model it changes weights of the
    model only. *)
Lemma runs_getNewestModel_empty model d w (Q : Model → World R W Image → Prop) :
  fs w !! normpath d = Some [] → Q model w → runs (getNewestModel model d) w Q.
Proof.
  intros Hd HQ. exists model, w. split; [|done].
  pose proof (getNewestModel_cases model d w) as H. by rewrite Hd in H.
Qed.

Lemma runs_getNewestModel model d w (Q : Model → World R W Image → Prop) :
  Forall (loadable model) (default [] (fs w !! normpath d)) →
  (∀ w', graph w' = graph w → log w' = log w → fs w' = fs w → Q model w') →
  runs (getNewestModel model d) w Q.
Proof.
  intros Hall HQ.
  destruct (getNewestModel_frame model d w Hall) as (w' & H & Hg & Hl & Hf & _).
  exists model, w'. split; [done|]. by apply HQ.
Qed.

(** [fit] logs one training run, leaves every weight alone that
    [compile] did not collect, and writes into its directory only. *)
Lemma runs_fit model collected classes x y val d w
    (Q : () → World R W Image → Prop) :
  m_collected model = Some collected →
  m_output_shape model = [classes] →
  fits classes x y → fits classes val.1 val.2 →
  x ≠ [] → val.1 ≠ [] → is_Some (fs w !! normpath d) →
  (∀ w', graph w' = graph w →
         log w' = log w ++ [FitBegin (m_name model) x y val;
                            FitEnd (m_name model)] →
         fs w' = <[normpath d :=
                     checkpointed model (weights w) x y val
                       (default [] (fs w !! normpath d))]> (fs w) →
         (∀ n, n ∉ collected → weights w' n = weights w n) →
         Q () w') →
  runs (fit optimizer checkpointed model x y val d) w Q.
Proof.
  intros Hc Hs Hx Hv Hne Hvne Hd HQ. unfold runs, fit. rewrite Hc, Hs.
  rewrite decide_True by done. eexists _, _. split; [done|].
  apply HQ; simpl; try done. intros n Hn. by rewrite decide_False.
Qed.

(** The training cells of a network whose directory does not exist
    yet. *)
Lemma runs_train_cells model classes saveDir x y val w
    (Q : Model → World R W Image → Prop) :
  writes_checkpoints checkpointed →
  m_output_shape model = [classes] →
  fits classes x y → fits classes val.1 val.2 →
  x ≠ [] → val.1 ≠ [] →
  fs w !! normpath saveDir = None →
  (∀ w', graph w' = graph w →
         log w' = log w ++ [FitBegin (m_name model) x y val;
                            FitEnd (m_name model)] →
         (∀ d, d ≠ normpath saveDir → fs w' !! d = fs w !! d) →
         Q (compiled (graph w) model) w') →
  runs (train_cells optimizer checkpointed model saveDir x y val) w Q.
Proof.
  intros Hcp Hs Hx Hv Hne Hvne Hdir HQ. unfold train_cells.
  apply runs_bind. eapply runs_liftG; [reflexivity|]. intros w1 Hg1 Hl1 Hf1.
  apply runs_bind, runs_ensure_dir; [by rewrite Hf1|]. intros w2 Hg2 Hl2 Hf2.
  assert (fs w2 !! normpath saveDir = Some []) as Hdir2.
  { rewrite Hf2. apply lookup_insert_eq. }
  apply runs_bind, runs_getNewestModel_empty; [done|].
  apply runs_bind. eapply runs_fit; [reflexivity|done..|by rewrite Hdir2|].
  intros w4 Hg4 Hl4 Hf4 _. rewrite Hdir2 in Hf4. simpl in Hf4.
  apply runs_getNewestModel.
  { rewrite Hf4, lookup_insert_eq. simpl. apply Hcp. }
  intros w5 Hg5 Hl5 Hf5.
  apply HQ; [congruence| |].
  - rewrite Hl5, Hl4. simpl. congruence.
  - intros d Hd. rewrite Hf5, Hf4, lookup_insert_ne by done.
    rewrite Hf2, lookup_insert_ne by done. by rewrite Hf1.
Qed.

(** *** Training sets *)

Lemma fits_one_hot (x : list Image) (y : list nat) k :
  length x = length y → fits (R:=R) k x (one_hot k <$> y).
Proof.
  intros Hlen. split; [by rewrite length_fmap|].
  by rewrite dims2_one_hot, length_fmap.
Qed.

Lemma fits_gate (x : list Image) (y : list nat) :
  length x = length y → fits (R:=R) 2 x (gate_row <$> y).
Proof.
  intros Hlen. split; [by rewrite length_fmap|].
  rewrite length_fmap. clear Hlen. unfold dims2.
  induction y as [|l y IH]; [done|]. simpl. f_equal; [|exact IH].
  unfold gate_row. by destruct (bool_decide (l ∈ [0; 1; 8; 9])).
Qed.

Lemma fits_domain p (x : list Image) (y : list nat) k :
  fits (R:=R) k (domain_examples p x y).*1
    (one_hot k <$> (domain_examples p x y).*2).
Proof. apply fits_one_hot. by rewrite !length_fmap. Qed.

Lemma gather_domain_x p (x : list Image) (y : list nat) :
  length x = length y →
  gather x (positions p y) = Some (domain_examples p x y).*1.
Proof. apply gather_positions. Qed.

Lemma gather_domain_y p (x : list Image) (y : list nat) :
  length x = length y →
  gather y (positions p y) = Some (domain_examples p x y).*2.
Proof.
  intros Hlen. rewrite gather_positions_labels. f_equal.
  symmetry. by apply filter_zip_snd.
Qed.

Lemma to_categorical_domain p (x : list Image) (y : list nat) :
  (∀ l, p l = true → l < orig_classes) →
  to_categorical (R:=R) (domain_examples p x y).*2 orig_classes
  = Some (one_hot orig_classes <$> (domain_examples p x y).*2).
Proof.
  intros Hp. apply to_categorical_Some, Forall_forall. intros l Hl.
  apply list_elem_of_fmap in Hl as ([b l'] & -> & Hin).
  apply list_elem_of_filter in Hin as [Hin _]. by apply Hp.
Qed.

(** Data in which a domain has an example give that domain a training
    set that is not empty. *)
Lemma domain_examples_nonempty p (x : list Image) (y : list nat) :
  length x = length y → Exists (λ l, p l = true) y →
  (domain_examples p x y).*1 ≠ [].
Proof.
  intros Hlen Hex. apply Exists_exists in Hex as (l & Hl & Hp).
  apply list_elem_of_lookup_1 in Hl as [i Hi].
  destruct (lookup_lt_is_Some_2 x i) as [a Ha].
  { apply lookup_lt_Some in Hi. lia. }
  assert ((a, l) ∈ domain_examples p x y) as Hin.
  { unfold domain_examples. apply list_elem_of_filter. split; [done|].
    apply (list_elem_of_lookup_2 _ i). by rewrite lookup_zip_with, Ha, Hi. }
  intros Hnil. apply fmap_nil_inv in Hnil. rewrite Hnil in Hin.
  by apply elem_of_nil in Hin.
Qed.

Lemma both_domains_nonempty (x : list Image) (y : list nat) :
  length x = length y → both_domains y → x ≠ [].
Proof.
  intros Hlen [Hex _] ->. destruct y; [|done]. by apply Exists_nil in Hex.
Qed.

(** *** Cells 10 to 61 *)

Lemma lookup_foldr_delete {A} (ds : list string) (m : gmap string A) d :
  d ∈ ds → foldr delete m ds !! d = None.
Proof.
  induction ds as [|d' ds IH]; intros Hd; [by apply elem_of_nil in Hd|].
  simpl. destruct (decide (d' = d)) as [->|Hne]; [apply lookup_delete_eq|].
  rewrite lookup_delete_ne by done. apply IH.
  apply elem_of_cons in Hd as [|]; [congruence|done].
Qed.

Lemma missing_after_training d0 (ds : list string)
    (before after : gmap string (list (File W))) :
  Forall (λ d, before !! d = None) (d0 :: ds) → d0 ∉ ds →
  (∀ d, d ≠ d0 → after !! d = before !! d) →
  Forall (λ d, after !! d = None) ds.
Proof.
  intros Hall Hd0 Hframe. apply Forall_cons in Hall as [_ Hall].
  apply Forall_forall. intros d Hd.
  rewrite Hframe by (intros ->; done).
  by apply (proj1 (Forall_forall _ _) Hall).
Qed.

(** Move on to the world after a step that leaves the directories
    alone: [Hg], [Hl] and [Hf] say what its graph and its log are, and
    which directories are missing. *)
Ltac next w Hg Hl Hf :=
  let w' := fresh "w" in
  let Hg' := fresh "Hg" in
  let Hl' := fresh "Hl" in
  let Hf' := fresh "Hf" in
  intros w' Hg' Hl' Hf';
  try rewrite Hg in Hg'; try rewrite Hg; rewrite Hl in Hl';
  rewrite <-Hf' in Hf;
  clear Hg Hl Hf'; try clear w;
  rename w' into w, Hg' into Hg, Hl' into Hl.

(** The same after the training cells of the network whose directory
    is the first of the missing ones. *)
Ltac trained w Hg Hl Hf :=
  let w' := fresh "w" in
  let Hg' := fresh "Hg" in
  let Hl' := fresh "Hl" in
  let Hf' := fresh "Hf" in
  intros w' Hg' Hl' Hf';
  try rewrite Hg in Hg'; try rewrite Hg; rewrite Hl in Hl';
  apply (missing_after_training _ _ _ _ Hf) in Hf';
    [|rewrite !elem_of_cons, elem_of_nil; intros ?; intuition discriminate];
  clear Hg Hl Hf; try clear w;
  rename w' into w, Hg' into Hg, Hl' into Hl, Hf' into Hf.

Lemma cells_10_61_run s c w :
  graph w = ∅ → valid_cifar10 c → enough_examples s c →
  writes_checkpoints checkpointed →
  let x := scale <$> take (train_examples s) (cifar_x_train c) in
  let y := take (train_examples s) (cifar_y_train c) in
  let xt := scale <$> take (test_examples s) (cifar_x_test c) in
  let yt := take (test_examples s) (cifar_y_test c) in
  runs (cells_10_61 optimizer checkpointed scale s c) w (λ v w1,
    graph_program (flags s) ∅ = Some ((nets v, mixture v), graph w1)
    ∧ (x_train v, y_train v, x_test v, y_test v) = (x, y, xt, yt)
    ∧ (y_train0 v, y_test0 v)
      = (one_hot orig_classes <$> y, one_hot orig_classes <$> yt)
    ∧ log w1 = log w ++ take 8 (training_runs x y xt yt)
    ∧ fs w1 !! normpath "./moe3Cifar10/" = Some []).
Proof.
  intros Hg (Hlx & Hlt & Hy & Hyt) [[Hart Hnat] [Hartt Hnatt]] Hcp x y xt yt.
  fold y in Hart, Hnat. fold yt in Hartt, Hnatt.
  assert (length x = length y) as Hxy.
  { unfold x, y. rewrite length_fmap, !length_take. lia. }
  assert (length xt = length yt) as Hxyt.
  { unfold xt, yt. rewrite length_fmap, !length_take. lia. }
  assert (Forall (λ l, l < orig_classes) y) as Hy'.
  { unfold y. by apply Forall_take. }
  assert (Forall (λ l, l < orig_classes) yt) as Hyt'.
  { unfold yt. by apply Forall_take. }
  assert (x ≠ []) as Hx0 by (by apply (both_domains_nonempty x y)).
  assert (xt ≠ []) as Hxt0 by (by apply (both_domains_nonempty xt yt)).
  destruct (graph_program_facts (flags s)) as (n & mix & g & Hprog & Hfacts).
  destruct (graph_program_steps _ _ _ _ Hprog)
    as (n0 & g1 & g2 & mix0 & Hdef & Hcomp & Hfrz & Hcon & Hcm).
  destruct Hfacts as (_ & _ & _ & _ & _ & Hmodels & _).
  unfold compile_all, mbind, G_bind, compile in Hcomp. simpl in Hcomp.
  injection Hcomp as <-.
  unfold compile_mixture, mbind, G_bind, compile in Hcm. simpl in Hcm.
  injection Hcm as <-.
  simpl in Hmodels. injection Hmodels as Nb Sb Ng Sg Na Sa Nn Sn _ _.
  remember (log w) as L eqn:Hl. symmetry in Hl.
  unfold cells_10_61. fold x y xt yt.
  do 5 apply runs_rmtree.
  match goal with
  | |- runs _ ?w5 _ =>
      assert (Forall (λ d, fs w5 !! d = None)
                ["baseCifar10"; "gate0Cifar10"; "artCifar10"; "natureCifar10";
                 "moe3Cifar10"]) as Hf;
      [|assert (graph w5 = ∅) as Hg5 by exact Hg;
        assert (log w5 = L) as Hl5 by exact Hl;
        generalize dependent w5]
  end.
  { apply Forall_forall. intros d Hd.
    apply (lookup_foldr_delete
             ["artCifar10"; "baseCifar10"; "natureCifar10"; "moe3Cifar10";
              "gate0Cifar10"]).
    revert Hd. rewrite !elem_of_cons, !elem_of_nil. tauto. }
  clear w Hg Hl. intros w Hf Hg Hl.
  apply runs_bind. eapply runs_lift; [by apply to_categorical_Some|].
  apply runs_bind. eapply runs_lift; [by apply to_categorical_Some|].
  apply runs_bind. eapply runs_liftG; [rewrite Hg; exact Hdef|].
  next w Hg Hl Hf.
  (* baseline *)
  apply runs_bind.
  eapply (runs_train_cells _ 10);
    [done|done|by apply fits_one_hot..|done|done|exact (Forall_inv Hf)|].
  trained w Hg Hl Hf.
  (* level-1 gate *)
  apply runs_bind. eapply runs_lift; [apply (y_G0_Some y)|].
  fold (gate_row (R:=R)).
  apply runs_bind. eapply runs_lift; [apply (y_G0_Some yt)|].
  fold (gate_row (R:=R)).
  apply runs_bind.
  eapply (runs_train_cells _ 2);
    [done|done|by apply fits_gate..|done|done|exact (Forall_inv Hf)|].
  trained w Hg Hl Hf.
  (* artificial expert *)
  apply runs_bind. eapply runs_lift; [by apply gather_domain_x|].
  apply runs_bind. eapply runs_lift; [by apply gather_domain_x|].
  apply runs_bind. eapply runs_lift; [by apply (gather_domain_y _ x)|].
  apply runs_bind. eapply runs_lift; [by apply (gather_domain_y _ xt)|].
  apply runs_bind.
  eapply runs_lift; [apply to_categorical_domain, in_art_lt|].
  apply runs_bind.
  eapply runs_lift; [apply to_categorical_domain, in_art_lt|].
  apply runs_bind.
  eapply (runs_train_cells _ 10);
    [done|done|apply fits_domain|apply fits_domain
    |by apply domain_examples_nonempty|by apply domain_examples_nonempty
    |exact (Forall_inv Hf)|].
  trained w Hg Hl Hf.
  (* natural expert *)
  apply runs_bind. eapply runs_lift; [by apply gather_domain_x|].
  apply runs_bind. eapply runs_lift; [by apply gather_domain_x|].
  apply runs_bind. eapply runs_lift; [by apply (gather_domain_y _ x)|].
  apply runs_bind. eapply runs_lift; [by apply (gather_domain_y _ xt)|].
  apply runs_bind.
  eapply runs_lift; [apply to_categorical_domain, in_nature_lt|].
  apply runs_bind.
  eapply runs_lift; [apply to_categorical_domain, in_nature_lt|].
  apply runs_bind.
  eapply (runs_train_cells _ 10);
    [done|done|apply fits_domain|apply fits_domain
    |by apply domain_examples_nonempty|by apply domain_examples_nonempty
    |exact (Forall_inv Hf)|].
  trained w Hg Hl Hf.
  (* freeze, connect, compile *)
  apply runs_bind. eapply runs_liftG; [rewrite Hg; exact Hfrz|].
  next w Hg Hl Hf.
  apply runs_bind. eapply runs_liftG; [rewrite Hg; exact Hcon|].
  next w Hg Hl Hf.
  apply runs_bind. eapply runs_liftG; [reflexivity|]. next w Hg Hl Hf.
  apply runs_bind, runs_ensure_dir; [exact (Forall_inv Hf)|].
  intros w' Hg' Hl' Hf'. rewrite Hg in Hg'. rewrite Hl in Hl'.
  apply runs_bind, runs_getNewestModel_empty;
    [rewrite Hf'; apply lookup_insert_eq|].
  apply runs_ret. simpl. rewrite Hg'. split; [exact Hprog|].
  split; [done|]. split; [done|]. split.
  - rewrite Hl', Nb, Ng, Na, Nn. by rewrite <-!(assoc_L (++)).
  - rewrite Hf'. apply lookup_insert_eq.
Qed.

(** *** The whole notebook *)

Lemma notebook_run s c w :
  graph w = ∅ → valid_cifar10 c → enough_examples s c →
  writes_checkpoints checkpointed →
  let x := scale <$> take (train_examples s) (cifar_x_train c) in
  let y := take (train_examples s) (cifar_y_train c) in
  let xt := scale <$> take (test_examples s) (cifar_x_test c) in
  let yt := take (test_examples s) (cifar_y_test c) in
  ∃ v w1 w2,
    cells_10_61 optimizer checkpointed scale s c w = Some (v, w1)
    ∧ cell_62 optimizer checkpointed v w1 = Some ((), w2)
    ∧ notebook optimizer checkpointed scale s c w = Some (v, w2)
    ∧ graph_program (flags s) ∅ = Some ((nets v, mixture v), graph w1)
    ∧ graph_facts (nets v) (mixture v) (graph w1)
    ∧ graph w2 = graph w1
    ∧ log w1 = log w ++ take 8 (training_runs x y xt yt)
    ∧ log w2 = log w ++ training_runs x y xt yt
    ∧ ∀ nm, nm ∉ sub_gate_weights → weights w2 nm = weights w1 nm.
Proof.
  intros Hg Hvalid Henough Hcp x y xt yt.
  destruct (cells_10_61_run s c w Hg Hvalid Henough Hcp)
    as (v & w1 & Hcells & Hprog & Hdata & Htargets & Hlog & Hmoe).
  fold x y xt yt in Hdata, Htargets, Hlog.
  destruct (graph_program_facts (flags s)) as (n & mix & g & Hprog' & Hfacts).
  rewrite Hprog in Hprog'. injection Hprog' as <- <- <-.
  pose proof Hfacts as (_ & _ & _ & _ & _ & Hmodels & _ & _ & _ & _ & Hcoll).
  injection Hmodels as _ _ _ _ _ _ _ _ Nm Sm.
  injection Hdata as Hx Hy Hxt Hyt. injection Htargets as Hy0 Hyt0.
  destruct Hvalid as (Hlx & Hlt & _ & _).
  destruct Henough as [Htrain Htest]. fold y in Htrain. fold yt in Htest.
  assert (length x = length y) as Hxy.
  { unfold x, y. rewrite length_fmap, !length_take. lia. }
  assert (length xt = length yt) as Hxyt.
  { unfold xt, yt. rewrite length_fmap, !length_take. lia. }
  destruct (runs_fit (model (mixture v)) sub_gate_weights 10
              (x_train v) (y_train0 v) (x_test v, y_test0 v) "./moe3Cifar10/" w1
              (λ _ w2, graph w2 = graph w1
                       ∧ log w2 = log w1 ++ [FitBegin "model" x
                                               (one_hot orig_classes <$> y)
                                               (xt, one_hot orig_classes <$> yt);
                                             FitEnd "model"]
                       ∧ ∀ nm, nm ∉ sub_gate_weights →
                               weights w2 nm = weights w1 nm))
    as ([] & w2 & Hfit & Hg2 & Hl2 & Hw2); try done.
  { rewrite Hx, Hy0. by apply fits_one_hot. }
  { simpl. rewrite Hxt, Hyt0. by apply fits_one_hot. }
  { rewrite Hx. by apply (both_domains_nonempty x y). }
  { simpl. rewrite Hxt. by apply (both_domains_nonempty xt yt). }
  { intros w2 Hg2 Hl2 _ Hw2. rewrite Hl2, Nm, Hx, Hy0, Hxt, Hyt0. done. }
  exists v, w1, w2. split; [done|]. split; [exact Hfit|]. split.
  { unfold notebook, mbind, NB_bind. rewrite Hcells.
    unfold cell_62 in Hfit. unfold cell_62. by rewrite Hfit. }
  do 4 (split; [done|]). split; [|done].
  rewrite Hl2, Hlog, <-(assoc_L (++)). done.
Qed.

Lemma sub_gate_weights_trainable g (l : list string) nm :
  filter (λ nm, is_trainable g nm = true) l = mixture_layers →
  nm ∈ sub_gate_weights → is_trainable g nm = true.
Proof.
  intros Hf Hnm.
  assert (nm ∈ mixture_layers) as Hin.
  { revert Hnm. unfold sub_gate_weights.
    rewrite !elem_of_cons, elem_of_nil.
    intros [->|[->|[->|[->|[]]]]]; by vm_compute; set_solver. }
  rewrite <-Hf in Hin. by apply list_elem_of_filter in Hin as [? _].
Qed.

(** C4: on data in which both domains occur, and with a checkpoint
    callback that writes checkpoints, the notebook reaches cell 62; then
    every layer of the baseline, of the level-1 gate and of the two
    experts is non-trainable, and fitting the mixture leaves the weights
    of all of them as they were; the trainable layers of the mixture are
    the layers of the two sub-gates and the final [Lambda], and
    [compile] handed the optimizer the weights of the sub-gates' dense
    layers only. *)
Theorem frozen_submodels_keep_weights s c w :
  fresh w → valid_cifar10 c → enough_examples s c →
  writes_checkpoints checkpointed →
  ∃ v w1 w2,
    cells_10_61 optimizer checkpointed scale s c w = Some (v, w1)
    ∧ cell_62 optimizer checkpointed v w1 = Some ((), w2)
    ∧ (∀ nm, nm ∈ pretrained_layers (nets v) →
             is_trainable (graph w1) nm = false
             ∧ weights w2 nm = weights w1 nm)
    ∧ (∀ nm, nm ∈ m_layers (model (mixture v)) →
             is_trainable (graph w1) nm = true
             ↔ nm ∈ layer_names "artExpertGate" 5
                    ++ layer_names "natureExpertGate" 5 ++ ["lambda_1"])
    ∧ m_collected (model (mixture v)) = Some sub_gate_weights
    ∧ graph w2 = graph w1.
Proof.
  intros [Hg _] Hvalid Henough Hcp.
  destruct (notebook_run s c w Hg Hvalid Henough Hcp)
    as (v & w1 & w2 & Hcells & Hfit & _ & _ & Hfacts & Hg2 & _ & _ & Hw).
  exists v, w1, w2. do 2 (split; [done|]).
  destruct Hfacts as (_ & _ & _ & _ & _ & _ & _ & Hfrozen & _ & Htrain & Hcoll).
  split; [|split; [|done]].
  - intros nm Hnm. rewrite forallb_forall in Hfrozen.
    apply list_elem_of_In, Hfrozen, negb_true_iff in Hnm.
    split; [done|]. apply Hw. intros Hin.
    apply (sub_gate_weights_trainable _ _ _ Htrain) in Hin. congruence.
  - intros nm Hnm. fold mixture_layers. rewrite <-Htrain, list_elem_of_filter.
    tauto.
Qed.

(** C6: from a fresh kernel, on data in which both domains occur and
    with a checkpoint callback that writes checkpoints, the notebook
    trains, in this order, the baseline, the level-1 gate, the
    artificial expert, the natural expert and the mixture, and each
    training ends before the next one begins. *)
Theorem trains_in_order s c w :
  fresh w → valid_cifar10 c → enough_examples s c →
  writes_checkpoints checkpointed →
  let x := scale <$> take (train_examples s) (cifar_x_train c) in
  let y := take (train_examples s) (cifar_y_train c) in
  let xt := scale <$> take (test_examples s) (cifar_x_test c) in
  let yt := take (test_examples s) (cifar_y_test c) in
  ∃ v w',
    notebook optimizer checkpointed scale s c w = Some (v, w')
    ∧ log w' = training_runs x y xt yt
    ∧ phase <$> log w'
      = [("begin", "baseModel"); ("end", "baseModel");
         ("begin", "gate0Model"); ("end", "gate0Model");
         ("begin", "artificialModel"); ("end", "artificialModel");
         ("begin", "naturalModel"); ("end", "naturalModel");
         ("begin", "model"); ("end", "model")].
Proof.
  intros [Hg Hl] Hvalid Henough Hcp x y xt yt.
  destruct (notebook_run s c w Hg Hvalid Henough Hcp)
    as (v & _ & w2 & _ & _ & Hrun & _ & _ & _ & _ & Hlog & _).
  exists v, w2. split; [done|].
  fold x y xt yt in Hlog. rewrite Hl in Hlog. simpl in Hlog.
  split; [done|]. by rewrite Hlog.
Qed.

(** C5: on data in which both domains occur, and with a checkpoint
    callback that writes checkpoints, the artificial expert is fit on
    the training examples whose label is in {0, 1, 8, 9}, all of them
    and no other, and the natural expert on those whose label is in
    {2, 3, 4, 5, 6, 7}; their validation sets are cut from the test data
    in the same way. *)
Theorem experts_fit_on_their_domain s c w :
  fresh w → valid_cifar10 c → enough_examples s c →
  writes_checkpoints checkpointed →
  let x : list Image := scale <$> take (train_examples s) (cifar_x_train c) in
  let y : list nat := take (train_examples s) (cifar_y_train c) in
  let xt : list Image := scale <$> take (test_examples s) (cifar_x_test c) in
  let yt : list nat := take (test_examples s) (cifar_y_test c) in
  let art := λ xy : Image * nat, xy.2 ∈ [0; 1; 8; 9] in
  let nature := λ xy : Image * nat, xy.2 ∈ [2; 3; 4; 5; 6; 7] in
  let targets : list (Image * nat) → list (list R) :=
    λ ex, one_hot orig_classes <$> ex.*2 in
  ∃ v w',
    notebook optimizer checkpointed scale s c w = Some (v, w')
    ∧ FitBegin "artificialModel" (filter art (zip x y)).*1
        (targets (filter art (zip x y)))
        ((filter art (zip xt yt)).*1, targets (filter art (zip xt yt)))
      ∈ log w'
    ∧ FitBegin "naturalModel" (filter nature (zip x y)).*1
        (targets (filter nature (zip x y)))
        ((filter nature (zip xt yt)).*1, targets (filter nature (zip xt yt)))
      ∈ log w'
    ∧ (∀ m x' y' val, FitBegin m x' y' val ∈ log w' →
         (m = "artificialModel" →
            x' = (filter art (zip x y)).*1 ∧ y' = targets (filter art (zip x y)))
         ∧ (m = "naturalModel" →
              x' = (filter nature (zip x y)).*1
              ∧ y' = targets (filter nature (zip x y)))).
Proof.
  intros [Hg Hl] Hvalid Henough Hcp x y xt yt art nature targets.
  destruct (notebook_run s c w Hg Hvalid Henough Hcp)
    as (v & _ & w2 & _ & _ & Hrun & _ & _ & _ & _ & Hlog & _).
  exists v, w2. split; [done|].
  fold x y xt yt in Hlog. rewrite Hl in Hlog. simpl in Hlog.
  assert (∀ (a : list Image) (b : list nat),
            domain_examples in_art a b = filter art (zip a b)) as Hart.
  { intros a b. unfold domain_examples. apply list_filter_iff.
    intros [i l]. unfold art. simpl. apply in_art_spec. }
  assert (∀ (a : list Image) (b : list nat),
            domain_examples in_nature a b = filter nature (zip a b)) as Hnat.
  { intros a b. unfold domain_examples. apply list_filter_iff.
    intros [i l]. unfold nature. simpl. apply in_nature_spec. }
  rewrite Hlog. unfold training_runs. rewrite !Hart, !Hnat. fold targets.
  split; [set_solver|]. split; [set_solver|].
  intros m x' y' val. rewrite !elem_of_cons, elem_of_nil.
  intros [H|[H|[H|[H|[H|[H|[H|[H|[H|[H|[]]]]]]]]]]];
    try discriminate H; injection H as -> -> -> ->; by split.
Qed.

(** C7: the targets of the level-1 gate depend on the label alone:
    category 0, encoded [1, 0], for a label in {0, 1, 8, 9} and category
    1, encoded [0, 1], for any other label; and on data in which both
    domains occur, with a checkpoint callback that writes checkpoints,
    the gate is trained on exactly these targets. *)
Theorem gate_ground_truth s c w :
  fresh w → valid_cifar10 c → enough_examples s c →
  writes_checkpoints checkpointed →
  let x : list Image := scale <$> take (train_examples s) (cifar_x_train c) in
  let y : list nat := take (train_examples s) (cifar_y_train c) in
  let xt : list Image := scale <$> take (test_examples s) (cifar_x_test c) in
  let yt : list nat := take (test_examples s) (cifar_y_test c) in
  let row : nat → list R :=
    λ l, if bool_decide (l ∈ [0; 1; 8; 9]) then [r1; r0] else [r0; r1] in
  ∃ v w',
    notebook optimizer checkpointed scale s c w = Some (v, w')
    ∧ FitBegin "gate0Model" x (row <$> y) (xt, row <$> yt) ∈ log w'
    ∧ (∀ x' y' val, FitBegin "gate0Model" x' y' val ∈ log w' →
         x' = x ∧ y' = row <$> y ∧ val = (xt, row <$> yt))
    ∧ (∀ labels, y_G0 labels = Some (row <$> labels))
    ∧ (∀ l, gate0_label l = if bool_decide (l ∈ [0; 1; 8; 9]) then 0 else 1)
    ∧ (∀ l, row l = one_hot 2 (gate0_label l)).
Proof.
  intros [Hg Hl] Hvalid Henough Hcp x y xt yt row.
  destruct (notebook_run s c w Hg Hvalid Henough Hcp)
    as (v & _ & w2 & _ & _ & Hrun & _ & _ & _ & _ & Hlog & _).
  exists v, w2. split; [done|].
  fold x y xt yt in Hlog. rewrite Hl in Hlog. simpl in Hlog.
  rewrite Hlog. unfold training_runs. change (gate_row (R:=R)) with row.
  split; [set_solver|]. split.
  { intros x' y' val. rewrite !elem_of_cons, elem_of_nil.
    intros [H|[H|[H|[H|[H|[H|[H|[H|[H|[H|[]]]]]]]]]]];
      try discriminate H; by injection H as -> -> ->. }
  split; [apply y_G0_Some|]. split; [done|].
  intros l. unfold row, gate0_label, in_art.
  by destruct (bool_decide (l ∈ [0; 1; 8; 9])).
Qed.
End Run.

(** ** The small instance *)

Example sample_output :
  output sample_base sample_gate sample_art sample_nat
    sample_artGate sample_natureGate
  = Some [[11; 42; 93; 164; 255; 366; 497; 648; 819; 1010];
          [7; 7; 7; 7; 7; 7; 7; 7; 7; 7]]%Z.
Proof. vm_compute. reflexivity. Qed.

Lemma hard_routing_witness :
  ∃ out a b,
    output sample_base sample_gate sample_art sample_nat
      sample_artGate sample_natureGate = Some out
    ∧ subGateLambda sample_base sample_art sample_artGate = Some a
    ∧ subGateLambda sample_base sample_nat sample_natureGate = Some b
    ∧ out !! 0 = a !! 0 ∧ out !! 1 = b !! 1.
Proof.
  destruct (hard_routing 2 sample_base sample_gate sample_art sample_nat
              sample_artGate sample_natureGate)
    as (out & a & b & Hout & Ha & Hb & _ & _ & Hrows & _);
    [reflexivity..|].
  exists out, a, b. repeat (split; [assumption|]). split.
  - exact (Hrows 0 7%Z 3%Z eq_refl).
  - exact (Hrows 1 2%Z 2%Z eq_refl).
Defined.

Lemma soft_blend_witness :
  ∃ subgate out,
    Reshape_apply 10 2 sample_units = Some subgate
    ∧ subGateLambda sample_base sample_art subgate = Some out
    ∧ dims2 out = replicate 2 10.
Proof.
  destruct (soft_blend 2 sample_base sample_art sample_units)
    as (subgate & out & Hs & Hout & Hd & _); [reflexivity..|].
  exists subgate, out. repeat split; assumption.
Defined.

Lemma mixture_combines_four_witness :
  ∃ out,
    output sample_base sample_gate sample_art sample_nat
      sample_artGate sample_natureGate = Some out
    ∧ dims2 out = replicate 2 orig_classes.
Proof.
  destruct (mixture_combines_four small) as (n & mix & g & _ & _ & _ & _ & H & _).
  apply (H Z _ 2); reflexivity.
Defined.

Lemma experts_full_softmax_witness :
  ∃ a b,
    subGateLambda sample_base sample_art sample_artGate = Some a
    ∧ subGateLambda sample_base sample_nat sample_natureGate = Some b
    ∧ dims2 a = replicate 2 orig_classes
    ∧ dims2 b = replicate 2 orig_classes.
Proof.
  destruct (experts_full_softmax small)
    as (n & mix & g & _ & _ & _ & _ & _ & _ & H).
  apply (H Z _ 2); reflexivity.
Defined.

Lemma sample_fresh : fresh sample_world.
Proof. split; reflexivity. Defined.

Lemma sample_valid : valid_cifar10 sample_cifar10.
Proof.
  unfold valid_cifar10, orig_classes. simpl.
  repeat split; try reflexivity; repeat (constructor; [lia|]); constructor.
Defined.

Lemma sample_enough : enough_examples sample_settings sample_cifar10.
Proof.
  repeat split.
  - apply Exists_cons_hd. reflexivity.
  - apply Exists_cons_tl, Exists_cons_hd. reflexivity.
  - apply Exists_cons_hd. reflexivity.
  - apply Exists_cons_tl, Exists_cons_hd. reflexivity.
Defined.

Lemma sample_writes : writes_checkpoints sample_checkpointed.
Proof.
  intros model weights x y val. apply Forall_cons. split; [|apply Forall_nil_2].
  by eexists.
Defined.

Lemma frozen_submodels_keep_weights_witness :
  ∃ v w1 w2,
    cells_10_61 sample_optimizer sample_checkpointed S
      sample_settings sample_cifar10 sample_world = Some (v, w1)
    ∧ cell_62 sample_optimizer sample_checkpointed v w1 = Some ((), w2)
    ∧ ∀ nm, nm ∈ pretrained_layers (nets v) → weights w2 nm = weights w1 nm.
Proof.
  destruct (frozen_submodels_keep_weights sample_optimizer sample_checkpointed S
              sample_settings sample_cifar10 sample_world
              sample_fresh sample_valid sample_enough sample_writes)
    as (v & w1 & w2 & Hcells & Hfit & Hkeep & _).
  exists v, w1, w2. split; [assumption|]. split; [assumption|].
  intros nm Hnm. exact (proj2 (Hkeep nm Hnm)).
Defined.

Lemma trains_in_order_witness :
  ∃ v w',
    notebook sample_optimizer sample_checkpointed S
      sample_settings sample_cifar10 sample_world = Some (v, w')
    ∧ phase <$> log w'
      = [("begin", "baseModel"); ("end", "baseModel");
         ("begin", "gate0Model"); ("end", "gate0Model");
         ("begin", "artificialModel"); ("end", "artificialModel");
         ("begin", "naturalModel"); ("end", "naturalModel");
         ("begin", "model"); ("end", "model")].
Proof.
  destruct (trains_in_order sample_optimizer sample_checkpointed S
              sample_settings sample_cifar10 sample_world
              sample_fresh sample_valid sample_enough sample_writes)
    as (v & w' & Hrun & _ & Hphases).
  exists v, w'. split; assumption.
Defined.

Lemma experts_fit_on_their_domain_witness :
  ∃ v w',
    notebook sample_optimizer sample_checkpointed S
      sample_settings sample_cifar10 sample_world = Some (v, w')
    ∧ FitBegin "artificialModel" [11; 13; 15]
        (one_hot orig_classes <$> [0; 9; 1])
        ([21], one_hot orig_classes <$> [8]) ∈ log w'
    ∧ FitBegin "naturalModel" [12; 14]
        (one_hot orig_classes <$> [3; 5])
        ([22; 23], one_hot orig_classes <$> [2; 4]) ∈ log w'.
Proof.
  destruct (experts_fit_on_their_domain sample_optimizer sample_checkpointed S
              sample_settings sample_cifar10 sample_world
              sample_fresh sample_valid sample_enough sample_writes)
    as (v & w' & Hrun & Hart & Hnat & _).
  exists v, w'. split; [assumption|]. split; [exact Hart | exact Hnat].
Defined.

Lemma gate_ground_truth_witness :
  ∃ v w',
    notebook sample_optimizer sample_checkpointed S
      sample_settings sample_cifar10 sample_world = Some (v, w')
    ∧ FitBegin "gate0Model" [11; 12; 13; 14; 15]
        [[1; 0]; [0; 1]; [1; 0]; [0; 1]; [1; 0]]%Z
        ([21; 22; 23], [[1; 0]; [0; 1]; [0; 1]]%Z) ∈ log w'.
Proof.
  destruct (gate_ground_truth sample_optimizer sample_checkpointed S
              sample_settings sample_cifar10 sample_world
              sample_fresh sample_valid sample_enough sample_writes)
    as (v & w' & Hrun & Hgate & _).
  exists v, w'. split; [assumption | exact Hgate].
Defined.

Example getNewestModel_sample :
  let listing :=
    [{| path := "a.hdf5"; mtime := 3; saved := λ _, Some {["base0" := 1]} |};
     {| path := "b.hdf5"; mtime := 7; saved := λ _, Some {["base0" := 2]} |};
     {| path := "c.hdf5"; mtime := 7; saved := λ _, Some {["base0" := 3]} |};
     {| path := "d.hdf5"; mtime := 5; saved := λ _, Some {["base0" := 4]} |}] in
  let notes := {| path := "notes.txt"; mtime := 9; saved := λ _, None |} in
  let w : World Z nat nat :=
    {| graph := ∅; weights := λ _, 0;
       fs := {["baseCifar10" := listing; "gate0Cifar10" := listing ++ [notes]]};
       log := [] |} in
  let m := mkModel "baseModel" {| t_shape := []; t_history := [] |}
             {| t_shape := [10]; t_history := ["input"; "base0"] |} in
  ((λ r, weights r.2 "base0") <$> getNewestModel m "./baseCifar10/" w,
   (λ r, weights r.2 "base0") <$> getNewestModel m "./artCifar10/" w,
   (λ r, weights r.2 "base0") <$> getNewestModel m "./gate0Cifar10/" w)
  = (Some 3, Some 0, None).
Proof. vm_compute. reflexivity. Qed.

(** * Further properties of the notebook's code *)

(** ** Index lists and the data sets cut with them *)

Lemma filter_ext_elem {A} (P Q : A → Prop)
    `{!∀ x, Decision (P x)} `{!∀ x, Decision (Q x)} (l : list A) :
  (∀ x, x ∈ l → P x ↔ Q x) → filter P l = filter Q l.
Proof.
  induction l as [|a l IH]; intros Hext; [done|].
  rewrite !filter_cons.
  assert (P a ↔ Q a) as Ha by (apply Hext; left).
  rewrite IH by (intros x Hx; apply Hext; by right).
  destruct (decide (P a)), (decide (Q a)); tauto.
Qed.

Lemma positions_Permutation (y : list nat) :
  Forall (λ l, l ≤ 9) y →
  positions in_art y ++ positions in_nature y ≡ₚ seq 0 (length y).
Proof.
  intros Hy. destruct (positions_partition y Hy) as [Hdis Hall].
  apply NoDup_Permutation.
  - apply NoDup_app. split; [apply NoDup_positions|].
    split; [|apply NoDup_positions]. intros i Ha Hn. by apply (Hdis i).
  - apply NoDup_seq.
  - intros i. rewrite elem_of_app, Hall, elem_of_seq. lia.
Qed.

(** X1: for labels in 0..9 the sizes of the two index lists add up to the
    size of the data set, for the training and for the test labels (1983
    + 3017 = 5000 and 407 + 593 = 1000 in the recorded run), and the
    positions come in increasing order without repetition. *)
Theorem index_lists_sizes (y_train y_test : list nat) :
  Forall (λ l, l ≤ 9) y_train →
  Forall (λ l, l ≤ 9) y_test →
  length (artTrain y_train) + length (natureTrain y_train) = length y_train
  ∧ length (artTest y_test) + length (natureTest y_test) = length y_test
  ∧ Forall (λ idx, StronglySorted lt idx ∧ NoDup idx)
      [artTrain y_train; natureTrain y_train; artTest y_test; natureTest y_test].
Proof.
  intros Htrain Htest.
  assert (∀ y, Forall (λ l, l ≤ 9) y →
            length (positions in_art y) + length (positions in_nature y)
            = length y) as Hlen.
  { intros y Hy. rewrite <-length_app, (positions_Permutation y Hy).
    apply length_seq. }
  assert (∀ p y, StronglySorted lt (positions p y) ∧ NoDup (positions p y))
    as Hsorted.
  { intros p y. split; [|apply NoDup_positions].
    unfold positions. generalize 0.
    induction (length y) as [|n IH]; intros k; simpl; [constructor|].
    rewrite filter_cons. case_decide; [|apply IH].
    constructor; [apply IH|]. apply Forall_forall. intros i Hi.
    apply list_elem_of_filter in Hi as [_ Hi]. apply elem_of_seq in Hi. lia. }
  split; [by apply Hlen|]. split; [by apply Hlen|].
  repeat (constructor; [apply Hsorted|]). constructor.
Qed.

Lemma index_lists_sizes_witness :
  length (artTrain [0; 3; 9; 5; 1; 7]) + length (natureTrain [0; 3; 9; 5; 1; 7]) = 6
  ∧ length (artTest [8; 2; 4]) + length (natureTest [8; 2; 4]) = 3.
Proof.
  destruct (index_lists_sizes [0; 3; 9; 5; 1; 7] [8; 2; 4]) as (H1 & H2 & _).
  - repeat (constructor; [lia|]). constructor.
  - repeat (constructor; [lia|]). constructor.
  - split; [exact H1 | exact H2].
Defined.

(** X2: with as many labels as images and labels in 0..9, cutting the
    data with the two index lists never raises, and every example goes to
    exactly one of the two experts: the two image sets together are a
    rearrangement of the whole data set, and so are the two label sets. *)
Theorem expert_sets_split_the_data {Image} (x : list Image) (y : list nat) :
  length x = length y →
  Forall (λ l, l ≤ 9) y →
  ∃ x_art x_nat y_art y_nat,
    gather x (artTrain y) = Some x_art
    ∧ gather x (natureTrain y) = Some x_nat
    ∧ gather y (artTrain y) = Some y_art
    ∧ gather y (natureTrain y) = Some y_nat
    ∧ x_art ++ x_nat ≡ₚ x
    ∧ y_art ++ y_nat ≡ₚ y
    ∧ length x_art = length y_art
    ∧ length x_nat = length y_nat.
Proof.
  intros Hlen Hy.
  pose (ea := filter (λ xy : Image * nat, in_art xy.2 = true) (zip x y)).
  pose (en := filter (λ xy : Image * nat, in_nature xy.2 = true) (zip x y)).
  assert (ea ++ en ≡ₚ zip x y) as Hperm.
  { unfold ea, en.
    rewrite (filter_ext_elem (λ xy : Image * nat, in_nature xy.2 = true)
               (λ xy, ¬ in_art xy.2 = true)).
    - apply filter_app_complement.
    - intros [i l] Hin. simpl.
      assert (l ≤ 9) as Hl.
      { apply (proj1 (Forall_forall _ _) Hy).
        apply list_elem_of_lookup in Hin as [k Hk].
        apply lookup_zip_with_Some in Hk as (? & ? & [= <- <-] & _ & Hk).
        by eapply list_elem_of_lookup_2. }
      rewrite (art_xor_nature l Hl). by destruct (in_nature l). }
  exists ea.*1, en.*1, ea.*2, en.*2.
  split; [by apply gather_positions|]. split; [by apply gather_positions|].
  split.
  { unfold artTrain. rewrite gather_positions_labels. f_equal.
    symmetry. by apply filter_zip_snd. }
  split.
  { unfold natureTrain. rewrite gather_positions_labels. f_equal.
    symmetry. by apply filter_zip_snd. }
  split.
  { rewrite <-fmap_app, Hperm. by rewrite fst_zip by lia. }
  split.
  { rewrite <-fmap_app, Hperm. by rewrite snd_zip by lia. }
  by rewrite !length_fmap.
Qed.

Lemma expert_sets_split_the_data_witness :
  ∃ x_art x_nat : list nat,
    gather [11; 12; 13; 14; 15] (artTrain [0; 3; 9; 5; 1]) = Some x_art
    ∧ gather [11; 12; 13; 14; 15] (natureTrain [0; 3; 9; 5; 1]) = Some x_nat
    ∧ x_art ++ x_nat ≡ₚ [11; 12; 13; 14; 15].
Proof.
  destruct (expert_sets_split_the_data [11; 12; 13; 14; 15] [0; 3; 9; 5; 1])
    as (xa & xn & _ & _ & Ha & Hn & _ & _ & Hp & _).
  - reflexivity.
  - repeat (constructor; [lia|]). constructor.
  - exists xa, xn. split; [exact Ha|]. split; [exact Hn | exact Hp].
Defined.

(** X3: the ground truth of the level-1 gate agrees with the index
    lists: an example is in the artificial list exactly when its gate
    category is 0 and, for a label in 0..9, in the natural list exactly
    when its gate category is 1.  A label above 9 gets category 1 but is
    in neither list. *)
Theorem gate_label_matches_index_lists (y : list nat) i l :
  y !! i = Some l →
  (gate0_label l = 0 ↔ i ∈ artTrain y)
  ∧ (l ≤ 9 → (gate0_label l = 1 ↔ i ∈ natureTrain y))
  ∧ (9 < l → gate0_label l = 1 ∧ (i ∉ artTrain y) ∧ (i ∉ natureTrain y)).
Proof.
  intros Hl. unfold artTrain, natureTrain, gate0_label.
  rewrite !elem_of_positions.
  assert (∀ p, (∃ l', y !! i = Some l' ∧ p l' = true) ↔ p l = true) as Hp.
  { intros p. split; [intros (l' & Hl' & Hp); congruence|].
    intros Hp. by exists l. }
  rewrite !Hp. split; [|split].
  - destruct (in_art l); split; done.
  - intros Hl9. rewrite (art_xor_nature l Hl9). destruct (in_nature l); split; done.
  - intros Hl9.
    assert (in_art l = false) as Ha.
    { destruct (in_art l) eqn:E; [|done]. apply in_art_lt in E.
      unfold orig_classes in E. lia. }
    assert (in_nature l = false) as Hn.
    { destruct (in_nature l) eqn:E; [|done]. apply in_nature_lt in E.
      unfold orig_classes in E. lia. }
    rewrite Ha, Hn. done.
Qed.

Lemma gate_label_matches_index_lists_witness :
  (gate0_label 9 = 0 ↔ 2 ∈ artTrain [0; 3; 9; 5; 1; 7])
  ∧ (gate0_label 3 = 1 ↔ 1 ∈ natureTrain [0; 3; 9; 5; 1; 7]).
Proof.
  split.
  - exact (proj1 (gate_label_matches_index_lists [0; 3; 9; 5; 1; 7] 2 9 eq_refl)).
  - apply (gate_label_matches_index_lists [0; 3; 9; 5; 1; 7] 1 3 eq_refl). lia.
Defined.

(** ** Routing of whole batches *)

Section BatchRouting.
Context {R : Type} `{!Num R}.
Implicit Types (t a b : list (list R)) (s : list (list (list R))).


Lemma output_length base gate art nat artG natG out :
  output base gate art nat artG natG = Some out → length out = length gate.
Proof.
  unfold output. intros H.
  destruct (slice2 0 gate) as [c0|] eqn:Hc0; simpl in H; [|done].
  destruct (slice2 1 gate) as [c1|] eqn:Hc1; simpl in H; [|done].
  destruct (greater c0 c1) as [cond|] eqn:Hcond; simpl in H; [|done].
  destruct (subGateLambda base art artG) as [a|]; simpl in H; [|done].
  destruct (subGateLambda base nat natG) as [b|]; simpl in H; [|done].
  unfold switch in H. case_decide as Hd; [|done]. destruct Hd as [Hlen Hdims].
  injection H as <-.
  assert (length a = length b) as Hab.
  { apply (f_equal length) in Hdims. unfold dims2 in Hdims.
    by rewrite !length_fmap in Hdims. }
  unfold greater, ew1 in Hcond. case_decide; [|done]. injection Hcond as <-.
  apply length_mapM in Hc0. apply length_mapM in Hc1.
  rewrite !length_zip_with in *. lia.
Qed.

Lemma blend_length base gate art nat artG natG out a b :
  output base gate art nat artG natG = Some out →
  subGateLambda base art artG = Some a →
  subGateLambda base nat natG = Some b →
  length a = length gate ∧ length b = length gate.
Proof.
  unfold output. intros H Ha Hb. rewrite Ha, Hb in H.
  destruct (slice2 0 gate) as [c0|] eqn:Hc0; simpl in H; [|done].
  destruct (slice2 1 gate) as [c1|] eqn:Hc1; simpl in H; [|done].
  destruct (greater c0 c1) as [cond|] eqn:Hcond; simpl in H; [|done].
  unfold switch in H. case_decide as Hd; [|done]. destruct Hd as [Hlen Hdims].
  assert (length a = length b) as Hab.
  { apply (f_equal length) in Hdims. unfold dims2 in Hdims.
    by rewrite !length_fmap in Hdims. }
  unfold greater, ew1 in Hcond. case_decide; [|done]. injection Hcond as <-.
  apply length_mapM in Hc0. apply length_mapM in Hc1.
  rewrite !length_zip_with in *. lia.
Qed.

(** X6: a batch in which the gate sends every example the same way is
    answered by one branch alone: if every gate row has its first output
    above its second the mixture returns the artificial blend, and if no
    gate row has (ties included) it returns the natural blend. *)
Theorem uniform_routing base gate art nat artG natG out :
  output base gate art nat artG natG = Some out →
  (Forall (λ g, ∃ g0 g1, g = [g0; g1] ∧ rgt g0 g1 = true) gate →
   subGateLambda base art artG = Some out)
  ∧ (Forall (λ g, ∃ g0 g1, g = [g0; g1] ∧ rgt g0 g1 = false) gate →
     subGateLambda base nat natG = Some out).
Proof.
  intros Hout.
  pose proof (output_length _ _ _ _ _ _ _ Hout) as Hlen.
  destruct (output_rows _ _ _ _ _ _ _ Hout) as (a & b & Ha & Hb & Hrows).
  destruct (blend_length _ _ _ _ _ _ _ _ _ Hout Ha Hb) as [Hla Hlb].
  split; intros Hall.
  - rewrite Ha. f_equal. apply list_eq. intros i.
    destruct (gate !! i) as [g|] eqn:Hg.
    + destruct (proj1 (Forall_forall _ _) Hall g) as (g0 & g1 & -> & Hgt).
      { by eapply list_elem_of_lookup_2. }
      by rewrite (Hrows i g0 g1 Hg), Hgt.
    + apply lookup_ge_None in Hg.
      rewrite !(proj2 (lookup_ge_None _ _)) by lia. done.
  - rewrite Hb. f_equal. apply list_eq. intros i.
    destruct (gate !! i) as [g|] eqn:Hg.
    + destruct (proj1 (Forall_forall _ _) Hall g) as (g0 & g1 & -> & Hgt).
      { by eapply list_elem_of_lookup_2. }
      by rewrite (Hrows i g0 g1 Hg), Hgt.
    + apply lookup_ge_None in Hg.
      rewrite !(proj2 (lookup_ge_None _ _)) by lia. done.
Qed.

Lemma output_rows_wide base gate art nat artG natG out :
  output base gate art nat artG natG = Some out →
  ∃ a b, subGateLambda base art artG = Some a
         ∧ subGateLambda base nat natG = Some b
         ∧ ∀ i g, gate !! i = Some g →
             ∃ g0 g1, g !! 0 = Some g0 ∧ g !! 1 = Some g1
                      ∧ out !! i = if rgt g0 g1 then a !! i else b !! i.
Proof.
  unfold output. intros H.
  destruct (slice2 0 gate) as [c0|] eqn:Hc0; simpl in H; [|done].
  destruct (slice2 1 gate) as [c1|] eqn:Hc1; simpl in H; [|done].
  destruct (greater c0 c1) as [cond|] eqn:Hcond; simpl in H; [|done].
  destruct (subGateLambda base art artG) as [a|]; simpl in H; [|done].
  destruct (subGateLambda base nat natG) as [b|]; simpl in H; [|done].
  exists a, b. do 2 (split; [done|]). intros i g Hg.
  pose proof (slice2_at _ _ _ i Hc0) as H0.
  pose proof (slice2_at _ _ _ i Hc1) as H1.
  unfold at2 in H0, H1. rewrite Hg in H0, H1. simpl in H0, H1.
  apply lookup_lt_Some in Hg as Hi.
  destruct (lookup_lt_is_Some_2 c0 i) as [g0 Hg0].
  { apply length_mapM in Hc0. lia. }
  destruct (lookup_lt_is_Some_2 c1 i) as [g1 Hg1].
  { apply length_mapM in Hc1. lia. }
  exists g0, g1. split; [congruence|]. split; [congruence|].
  apply (switch_lookup _ _ _ _ i (rgt g0 g1) H).
  unfold greater in Hcond. rewrite (ew1_lookup _ _ _ _ i Hcond).
  by rewrite Hg0, Hg1.
Qed.

(** X7: the prediction for an example depends on that example alone, not
    on the batch it is in: two batches on which the layer is defined,
    and which hold the same six input rows at positions [i] and [j], get
    the same output row there. *)
Theorem prediction_independent_of_batch
    base gate art nat artG natG out base' gate' art' nat' artG' natG' out' i j :
  output base gate art nat artG natG = Some out →
  output base' gate' art' nat' artG' natG' = Some out' →
  is_Some (gate !! i) →
  (base !! i, gate !! i, art !! i, nat !! i, artG !! i, natG !! i)
  = (base' !! j, gate' !! j, art' !! j, nat' !! j, artG' !! j, natG' !! j) →
  out !! i = out' !! j.
Proof.
  intros Hout Hout' [g Hg] Heq.
  injection Heq as Hb Hg' Ha Hn HaG HnG. rewrite Hg in Hg'. symmetry in Hg'.
  destruct (output_rows_wide _ _ _ _ _ _ _ Hout) as (a & b & Hsa & Hsb & Hrows).
  destruct (output_rows_wide _ _ _ _ _ _ _ Hout') as (a' & b' & Hsa' & Hsb' & Hrows').
  assert (∀ (x e : list (list R)) s x' e' s' (o o' : list (list R)),
            subGateLambda x e s = Some o → subGateLambda x' e' s' = Some o' →
            x !! i = x' !! j → e !! i = e' !! j → s !! i = s' !! j →
            is_Some (o !! i) → is_Some (o' !! j) → o !! i = o' !! j) as Hrow.
  { intros x e s x' e' s' o o' Ho Ho' Hx He Hs [r Hr] [r' Hr'].
    rewrite Hr, Hr'. f_equal.
    apply list_eq. intros c.
    pose proof (subGateLambda_at _ _ _ _ i c Ho) as Hat.
    pose proof (subGateLambda_at _ _ _ _ j c Ho') as Hat'.
    unfold at2, at3 in Hat, Hat'.
    rewrite Hr, Hx, He, Hs in Hat. rewrite Hr' in Hat'.
    simpl in Hat, Hat'. congruence. }
  pose proof (output_length _ _ _ _ _ _ _ Hout) as Hlen.
  pose proof (output_length _ _ _ _ _ _ _ Hout') as Hlen'.
  destruct (blend_length _ _ _ _ _ _ _ _ _ Hout Hsa Hsb) as [Hla Hlb].
  destruct (blend_length _ _ _ _ _ _ _ _ _ Hout' Hsa' Hsb') as [Hla' Hlb'].
  apply lookup_lt_Some in Hg as Hi. apply lookup_lt_Some in Hg' as Hj.
  destruct (lookup_lt_is_Some_2 out i) as [r Hr]; [lia|].
  destruct (lookup_lt_is_Some_2 out' j) as [r' Hr']; [lia|].
  destruct (Hrows i g Hg) as (g0 & g1 & H0 & H1 & ->).
  destruct (Hrows' j g Hg') as (g0' & g1' & H0' & H1' & ->).
  rewrite H0 in H0'. rewrite H1 in H1'. injection H0' as <-. injection H1' as <-.
  destruct (rgt g0 g1).
  - apply (Hrow base art artG base' art' artG' a a'); try done.
    + apply lookup_lt_is_Some. lia.
    + apply lookup_lt_is_Some. lia.
  - apply (Hrow base nat natG base' nat' natG' b b'); try done.
    + apply lookup_lt_is_Some. lia.
    + apply lookup_lt_is_Some. lia.
Qed.
End BatchRouting.

Lemma uniform_routing_witness :
  subGateLambda sample_base sample_art sample_artGate
  = Some [[11; 42; 93; 164; 255; 366; 497; 648; 819; 1010];
          [4; 4; 4; 4; 4; 4; 4; 4; 4; 4]]%Z
  ∧ subGateLambda sample_base sample_nat sample_natureGate
    = Some [[5; 5; 5; 5; 5; 5; 5; 5; 5; 5]; [7; 7; 7; 7; 7; 7; 7; 7; 7; 7]]%Z.
Proof.
  split.
  - refine (proj1 (uniform_routing sample_base [[7; 3]; [5; 1]]%Z sample_art
                     sample_nat sample_artGate sample_natureGate
                     [[11; 42; 93; 164; 255; 366; 497; 648; 819; 1010];
                      [4; 4; 4; 4; 4; 4; 4; 4; 4; 4]]%Z _) _).
    + vm_compute. reflexivity.
    + repeat (constructor; [eexists _, _; split; reflexivity|]). constructor.
  - refine (proj2 (uniform_routing sample_base [[3; 7]; [2; 2]]%Z sample_art
                     sample_nat sample_artGate sample_natureGate
                     [[5; 5; 5; 5; 5; 5; 5; 5; 5; 5];
                      [7; 7; 7; 7; 7; 7; 7; 7; 7; 7]]%Z _) _).
    + vm_compute. reflexivity.
    + repeat (constructor; [eexists _, _; split; reflexivity|]). constructor.
Defined.

Lemma prediction_independent_of_batch_witness :
  [[11; 42; 93; 164; 255; 366; 497; 648; 819; 1010];
   [7; 7; 7; 7; 7; 7; 7; 7; 7; 7]]%Z !! 0
  = [[7; 7; 7; 7; 7; 7; 7; 7; 7; 7];
     [11; 42; 93; 164; 255; 366; 497; 648; 819; 1010]]%Z !! 1.
Proof.
  apply (prediction_independent_of_batch
           sample_base sample_gate sample_art sample_nat
           sample_artGate sample_natureGate _
           (reverse sample_base) (reverse sample_gate) (reverse sample_art)
           (reverse sample_nat) (reverse sample_artGate)
           (reverse sample_natureGate) _ 0 1).
  - vm_compute. reflexivity.
  - vm_compute. reflexivity.
  - vm_compute. eexists. reflexivity.
  - vm_compute. reflexivity.
Defined.

(** ** Encoding of labels and reshaping *)

Section Encodings.
Context {R : Type} `{!Num R}.

Lemma one_hot_lookup k c i :
  c < k → i < k → one_hot (R:=R) k c !! i = Some (if decide (i = c) then r1 else r0).
Proof.
  intros Hc Hi. unfold one_hot. case_decide as Hic.
  - subst i. apply list_lookup_insert_eq. rewrite length_replicate. lia.
  - rewrite list_lookup_insert_ne by done. apply lookup_replicate_2. lia.
Qed.

Lemma one_hot_inj k c c' :
  (r0 : R) ≠ r1 → c < k → c' < k → one_hot (R:=R) k c = one_hot k c' → c = c'.
Proof.
  intros Hne Hc Hc' Heq. destruct (decide (c = c')) as [|Hcc]; [done|].
  pose proof (one_hot_lookup k c c Hc Hc) as H1.
  pose proof (one_hot_lookup k c' c Hc' Hc) as H2.
  rewrite Heq, H2 in H1. rewrite (decide_True (P:=c = c)) in H1 by done.
  rewrite (decide_False (P:=c = c')) in H1 by done. congruence.
Qed.

Lemma to_categorical_inv (l : list nat) k (t : list (list R)) :
  to_categorical l k = Some t →
  Forall (λ c, c < k) l ∧ t = one_hot k <$> l.
Proof.
  intros Ht.
  assert (Forall (λ c, c < k) l) as Hall.
  { unfold to_categorical in Ht. apply mapM_Some in Ht.
    induction Ht as [|c r l t Hc _ IH]; constructor; [|done].
    case_bool_decide; done. }
  split; [done|]. rewrite (to_categorical_Some l k Hall) in Ht. congruence.
Qed.

Lemma to_categorical_None (l : list nat) k :
  Exists (λ c, k ≤ c) l → to_categorical (R:=R) l k = None.
Proof.
  intros Hex. destruct (to_categorical l k) as [t|] eqn:Ht; [|done].
  apply to_categorical_inv in Ht as [Hall _].
  apply Exists_exists in Hex as (c & Hc & Hk).
  pose proof (proj1 (Forall_forall _ _) Hall c Hc) as Hlt. simpl in Hlt. lia.
Qed.

(** X8: for a positive number of classes, [to_categorical] is defined
    exactly when every label is below the number of classes, and it
    loses nothing: when 0 and 1 differ, two label lists with the same
    encoding are the same list. *)
Theorem to_categorical_defined_and_injective (y : list nat) k :
  0 < k →
  (is_Some (to_categorical (R:=R) y k) ↔ Forall (λ c, c < k) y)
  ∧ ((r0 : R) ≠ r1 →
     ∀ y' t, to_categorical (R:=R) y k = Some t →
             to_categorical y' k = Some t → y = y').
Proof.
  intros _. split; [split|].
  - intros [t Ht]. by apply (to_categorical_inv y k t).
  - intros Hall. rewrite (to_categorical_Some y k Hall). by eexists.
  - intros Hne y' t Ht Ht'.
    destruct (to_categorical_inv y k t Ht) as [Hy ->].
    destruct (to_categorical_inv y' k _ Ht') as [Hy' Heq].
    clear Ht Ht'. revert y' Hy' Heq.
    induction Hy as [|c y Hc _ IH]; intros [|c' y'] Hy' Heq; try done.
    apply Forall_cons in Hy' as [Hc' Hy']. injection Heq as Hcc Heq.
    f_equal; [by apply (one_hot_inj k)|by apply IH].
Qed.

Lemma concat_chunks rows cols (v : list R) :
  length v = rows * cols → concat (chunks rows cols v) = v.
Proof.
  revert v. induction rows as [|rows IH]; intros v Hlen; simpl.
  - by destruct v.
  - rewrite IH; [apply take_drop|]. rewrite length_drop. lia.
Qed.

Lemma Forall_chunks rows cols (v : list R) :
  length v = rows * cols → Forall (λ r, length r = cols) (chunks rows cols v).
Proof.
  revert v. induction rows as [|rows IH]; intros v Hlen; simpl; [constructor|].
  constructor.
  - rewrite length_take. lia.
  - apply IH. rewrite length_drop. lia.
Qed.

(** X9: [Reshape((rows, cols))] is defined exactly on batches whose
    every example has [rows * cols] entries; its result has [rows] rows
    of [cols] entries per example, and flattening it gives the input
    back. *)
Theorem Reshape_round_trip rows cols (t : list (list R)) :
  (is_Some (Reshape_apply rows cols t)
   ↔ Forall (λ v, length v = rows * cols) t)
  ∧ ∀ s : list (list (list R)), Reshape_apply rows cols t = Some s →
         concat (A:=R) <$> s = t
         ∧ Forall (λ m, length m = rows ∧ Forall (λ r, length r = cols) m) s.
Proof.
  assert (∀ s, Reshape_apply rows cols t = Some s →
            Forall2 (λ v m, length v = rows * cols ∧ m = chunks rows cols v) t s)
    as Hinv.
  { intros s Hs. unfold Reshape_apply in Hs. apply mapM_Some in Hs.
    eapply Forall2_impl; [exact Hs|]. intros v m Hvm. unfold reshape_row in Hvm.
    case_decide; [|done]. split; congruence. }
  split; [split|].
  - intros [s Hs]. eapply Forall2_Forall_l; [exact (Hinv s Hs)|].
    apply Forall_true. by intros m v [? _].
  - intros Hall. unfold Reshape_apply. apply mapM_is_Some.
    eapply Forall_impl; [exact Hall|]. intros v Hv. unfold compose, reshape_row.
    rewrite decide_True by done. by eexists.
  - intros s Hs. specialize (Hinv s Hs). clear Hs.
    induction Hinv as [|v m t s [Hv ->] _ [IH1 IH2]]; [by split|]. split.
    + rewrite fmap_cons, IH1. f_equal. by apply concat_chunks.
    + constructor; [|done]. split; [apply length_chunks|by apply Forall_chunks].
Qed.
End Encodings.

Lemma to_categorical_defined_and_injective_witness :
  is_Some (to_categorical (R:=Z) [0; 3; 9] 10)
  ∧ ∀ y', to_categorical (R:=Z) y' 10 = Some (one_hot 10 <$> [0; 3; 9]) →
          [0; 3; 9] = y'.
Proof.
  split.
  - refine (proj2 (proj1 (to_categorical_defined_and_injective (R:=Z)
                             [0; 3; 9] 10 _)) _); [lia|].
    repeat (constructor; [lia|]). constructor.
  - intros y'.
    refine (proj2 (to_categorical_defined_and_injective (R:=Z) [0; 3; 9] 10 _)
              _ y' (one_hot 10 <$> [0; 3; 9]) _).
    + lia.
    + simpl. lia.
    + reflexivity.
Defined.

Lemma Reshape_round_trip_witness :
  concat (A:=Z) <$> sample_artGate = sample_units.
Proof.
  apply (proj2 (Reshape_round_trip 10 2 sample_units) sample_artGate).
  reflexivity.
Defined.

(** ** Building and freezing networks *)

Lemma G_bind_ext {A B} (m : G A) (f f' : A → G B) g :
  (∀ a g', f a g' = f' a g') → (m ≫= f) g = (m ≫= f') g.
Proof.
  intros Hf. unfold mbind, G_bind. destruct (m g) as [[a g']|]; [apply Hf|done].
Qed.

Lemma G_bind_mret {A} (m : G A) g : (m ≫= mret) g = m g.
Proof. unfold mbind, G_bind. by destruct (m g) as [[a g']|]. Qed.

Lemma remove_dups_NoDup {A} `{!EqDecision A} (l : list A) :
  NoDup l → remove_dups l = l.
Proof.
  induction 1 as [|x l Hx _ IH]; simpl; [done|].
  destruct (decide_rel elem_of x l) as [|_]; [done|]. by rewrite IH.
Qed.

Lemma with_layers_notin layers g n :
  n ∉ layers.*2 → with_layers g layers !! n = g !! n.
Proof.
  unfold with_layers. revert g.
  induction layers as [|[k m] layers IH]; intros g Hn; simpl; [done|].
  rewrite fmap_cons, not_elem_of_cons in Hn. destruct Hn as [Hne Hn].
  rewrite IH by done. by apply lookup_insert_ne.
Qed.

Lemma with_layers_in layers g k n :
  NoDup layers.*2 → (k, n) ∈ layers →
  with_layers g layers !! n = Some {| kind := k; trainable := true |}.
Proof.
  revert g. induction layers as [|[k' m] layers IH]; intros g Hnd Hin.
  { by apply elem_of_nil in Hin. }
  rewrite fmap_cons in Hnd. apply NoDup_cons in Hnd as [Hm Hnd]. simpl in Hm.
  apply elem_of_cons in Hin as [[= -> ->]|Hin].
  - change (with_layers g ((k', m) :: layers))
      with (with_layers (<[m := {| kind := k'; trainable := true |}]> g) layers).
    rewrite with_layers_notin by done. apply lookup_insert_eq.
  - by apply IH.
Qed.

Lemma chain_spec layers t g :
  NoDup (t_history t ++ layers.*2) →
  (∀ n, n ∈ layers.*2 → g !! n = None) →
  chain layers t g
  = (s ← chain_shape layers.*1 (t_shape t);
     Some ({| t_shape := s; t_history := t_history t ++ layers.*2 |},
           with_layers g layers)).
Proof.
  revert t g. induction layers as [|[k n] layers IH]; intros t g Hnd Hfresh.
  { destruct t. simpl. by rewrite app_nil_r. }
  rewrite !fmap_cons in *. simpl fst in *. simpl snd in *.
  assert (NoDup (t_history t)) as Hh by (by apply NoDup_app in Hnd as [? _]).
  change (chain ((k, n) :: layers) t g)
    with ((call k n [t] ≫= chain layers) g).
  unfold call. unfold mbind at 1 2 3, G_bind at 1 2 3, G_lift. simpl.
  destruct (compute_output_shape k (t_shape t)) as [s|]; [|done]. simpl.
  unfold new_layer. rewrite Hfresh by apply list_elem_of_here.
  unfold mret, G_ret. rewrite app_nil_r, remove_dups_NoDup by done.
  rewrite IH.
  - simpl. by rewrite <-app_assoc.
  - simpl. by rewrite <-app_assoc.
  - intros m Hm. etrans; [apply lookup_insert_ne|apply Hfresh; by constructor].
    intros <-. apply NoDup_app in Hnd as (_ & _ & Hnd).
    by apply NoDup_cons in Hnd as [? _].
Qed.

Lemma layer_names_NoDup name n : NoDup (layer_names name n).
Proof.
  unfold layer_names. apply NoDup_fmap_2; [|apply NoDup_seq].
  intros i j Hij. apply String.app_inj in Hij. by apply pretty_nat_inj in Hij.
Qed.

(** What a stack gives on a well-formed input and with unused names. *)
Lemma chain_builds kinds names t g s :
  length kinds = length names →
  chain_shape kinds (t_shape t) = Some s →
  NoDup (t_history t) → NoDup names →
  (∀ n, n ∈ t_history t → is_Some (g !! n)) →
  (∀ n, n ∈ names → g !! n = None) →
  ∃ g',
    chain (zip kinds names) t g
    = Some ({| t_shape := s; t_history := t_history t ++ names |}, g')
    ∧ (∀ n, n ∉ names → g' !! n = g !! n)
    ∧ (∀ n, n ∈ names → is_trainable g' n = true)
    ∧ filter (λ n, owns_weights g' n = true) names
      = (filter (λ kn, has_weights kn.1 = true) (zip kinds names)).*2
    ∧ ∀ i k n, kinds !! i = Some k → names !! i = Some n →
               kind <$> g' !! n = Some k.
Proof.
  intros Hlen Hs Hh Hn Hin Hfresh.
  assert ((zip kinds names).*1 = kinds) as H1 by (apply fst_zip; lia).
  assert ((zip kinds names).*2 = names) as H2 by (apply snd_zip; lia).
  exists (with_layers g (zip kinds names)).
  assert (∀ k n, (k, n) ∈ zip kinds names →
            with_layers g (zip kinds names) !! n
            = Some {| kind := k; trainable := true |}) as Hlook.
  { intros k n Hkn. apply with_layers_in; [by rewrite H2|done]. }
  split; [|split; [|split; [|split]]].
  - rewrite chain_spec; rewrite ?H1, ?H2; [by rewrite Hs|..|done].
    apply NoDup_app. split; [done|]. split; [|done].
    intros n Hn1 Hn2. specialize (Hin n Hn1). rewrite Hfresh in Hin by done.
    by destruct Hin.
  - intros n Hn'. apply with_layers_notin. by rewrite H2.
  - intros n Hn'. rewrite <-H2 in Hn'.
    apply list_elem_of_fmap in Hn' as ([k n'] & -> & Hkn).
    exact (f_equal (from_option trainable false) (Hlook k n' Hkn)).
  - rewrite <-H2 at 1.
    assert (∀ l : list (LayerKind * string),
              (∀ kn, kn ∈ l → kn ∈ zip kinds names) →
              filter (λ n, owns_weights (with_layers g (zip kinds names)) n
                           = true) l.*2
              = (filter (λ kn, has_weights kn.1 = true) l).*2) as Hfilter.
    { induction l as [|[k n] l IH]; intros Hl; [done|].
      rewrite fmap_cons, !filter_cons. simpl.
      assert (owns_weights (with_layers g (zip kinds names)) n
              = has_weights k) as ->.
      { refine (f_equal (from_option (λ l, has_weights (kind l)) false)
                  (Hlook k n _)).
        apply Hl, list_elem_of_here. }
      rewrite IH by (intros kn Hkn; by apply Hl, list_elem_of_further).
      by case_decide. }
    by apply Hfilter.
  - intros i k n Hk Hn'. refine (f_equal (fmap kind) (Hlook k n _)).
    apply (list_elem_of_lookup_2 _ i). rewrite lookup_zip_with, Hk. simpl.
    by rewrite Hn'.
Qed.

Lemma simpleVGG_chain cifarInput num_classes name g :
  simpleVGG cifarInput num_classes name g
  = chain (zip [Conv2D 32 (3, 3) relu; Conv2D 32 (3, 3) relu;
                MaxPooling2D (2, 2); Dropout 25;
                Conv2D 64 (3, 3) relu; Conv2D 64 (3, 3) relu;
                MaxPooling2D (2, 2); Dropout 25;
                Flatten; Dense 512 relu; Dropout 50;
                Dense num_classes softmax]
             (layer_names name 12)) cifarInput g.
Proof.
  unfold simpleVGG.
  change (layer_names name 12)
    with ((λ i, name +:+ pretty i) <$> [0; 1; 2; 3; 4; 5; 6; 7; 8; 9; 10; 11]).
  cbn [fmap list_fmap lookup_total list_lookup_total zip_with chain].
  repeat (apply G_bind_ext; intros ? ?).
  symmetry. apply G_bind_mret.
Qed.

Lemma fatVGG_chain cifarInput num_classes name g :
  fatVGG cifarInput num_classes name g
  = chain (zip [Conv2D 32 (3, 3) relu; Conv2D 32 (3, 3) relu;
                MaxPooling2D (2, 2); Dropout 25;
                Conv2D 64 (3, 3) relu; Conv2D 64 (3, 3) relu;
                MaxPooling2D (2, 2); Dropout 25;
                Conv2D 128 (3, 3) relu; Conv2D 128 (3, 3) relu;
                Conv2D 128 (3, 3) relu;
                MaxPooling2D (2, 2); Dropout 25;
                Flatten; Dense 512 relu; Dropout 50;
                Dense num_classes softmax]
             (layer_names name 17)) cifarInput g.
Proof.
  unfold fatVGG.
  change (layer_names name 17)
    with ((λ i, name +:+ pretty i)
            <$> [0; 1; 2; 3; 4; 5; 6; 7; 8; 9; 10; 11; 12; 13; 14; 15; 16]).
  cbn [fmap list_fmap lookup_total list_lookup_total zip_with chain].
  repeat (apply G_bind_ext; intros ? ?).
  symmetry. apply G_bind_mret.
Qed.

Lemma subGate_chain cifarInput orig_classes numExperts name g :
  subGate cifarInput orig_classes numExperts name g
  = chain (zip [Flatten; Dense 512 relu; Dropout 50;
                Dense (orig_classes * numExperts) softmax;
                Reshape [orig_classes; numExperts]]
             (layer_names name 5)) cifarInput g.
Proof.
  unfold subGate.
  change (layer_names name 5) with ((λ i, name +:+ pretty i) <$> [0; 1; 2; 3; 4]).
  cbn [fmap list_fmap lookup_total list_lookup_total zip_with chain].
  repeat (apply G_bind_ext; intros ? ?).
  symmetry. apply G_bind_mret.
Qed.

Lemma chain_shape_step k kinds shape shape' :
  compute_output_shape k shape = Some shape' →
  chain_shape (k :: kinds) shape = chain_shape kinds shape'.
Proof. intros Hk. simpl. by rewrite Hk. Qed.

Lemma pool_shape h w c :
  2 ≤ h → 2 ≤ w →
  compute_output_shape (MaxPooling2D (2, 2)) [h; w; c]
  = Some [h `div` 2; w `div` 2; c].
Proof.
  intros Hh Hw. unfold compute_output_shape. rewrite decide_False; [done|lia].
Qed.

Lemma half_ge n k : 2 * k ≤ n → k ≤ n `div` 2.
Proof. intros H. apply Nat.div_le_lower_bound; lia. Qed.

(** Every step of a stack of the notebook, the poolings with what is
    known of the sizes. *)
Ltac shape_steps :=
  repeat first
    [ erewrite chain_shape_step by reflexivity
    | erewrite chain_shape_step by (apply pool_shape; assumption) ].

(** X15: on an image tensor of at least 4 by 4 whose layers are in the
    graph, and with twelve unused names, [simpleVGG] succeeds: its
    result has shape [[num_classes]] and the history of the input
    followed by the twelve new layers; the graph gains exactly these
    layers, all trainable; the ones that own weights are the four
    convolutions and the two dense layers, and the last layer is the
    softmax over [num_classes]. *)
Theorem simpleVGG_builds cifarInput num_classes name (g : Graph) h w c :
  t_shape cifarInput = [h; w; c] → 4 ≤ h → 4 ≤ w → 0 < c → 0 < num_classes →
  NoDup (t_history cifarInput) →
  (∀ n, n ∈ t_history cifarInput → is_Some (g !! n)) →
  (∀ n, n ∈ layer_names name 12 → g !! n = None) →
  ∃ g',
    simpleVGG cifarInput num_classes name g
    = Some ({| t_shape := [num_classes];
               t_history := t_history cifarInput ++ layer_names name 12 |}, g')
    ∧ (∀ n, n ∉ layer_names name 12 → g' !! n = g !! n)
    ∧ (∀ n, n ∈ layer_names name 12 → is_trainable g' n = true)
    ∧ filter (λ n, owns_weights g' n = true) (layer_names name 12)
      = (λ i, name +:+ pretty i) <$> [0; 1; 4; 5; 9; 11]
    ∧ kind <$> g' !! (name +:+ pretty 11) = Some (Dense num_classes softmax).
Proof.
  intros Hshape Hh4 Hw4 _ _ Hh Hin Hfresh.
  assert (2 ≤ h ∧ 2 ≤ w) as [Hh1 Hw1] by lia.
  assert (2 ≤ h `div` 2 ∧ 2 ≤ w `div` 2) as [Hh2 Hw2]
    by (split; apply half_ge; lia).
  destruct (chain_builds
              [Conv2D 32 (3, 3) relu; Conv2D 32 (3, 3) relu;
               MaxPooling2D (2, 2); Dropout 25;
               Conv2D 64 (3, 3) relu; Conv2D 64 (3, 3) relu;
               MaxPooling2D (2, 2); Dropout 25;
               Flatten; Dense 512 relu; Dropout 50;
               Dense num_classes softmax]
              (layer_names name 12) cifarInput g [num_classes])
    as (g' & Hrun & Hframe & Htrain & Hown & Hkind);
    [done|rewrite Hshape; by shape_steps|done|apply layer_names_NoDup|done..|].
  exists g'. rewrite simpleVGG_chain.
  split; [done|]. split; [done|]. split; [done|]. split; [by rewrite Hown|].
  by apply (Hkind 11).
Qed.

(** X16: the same for [fatVGG], on an image tensor of at least 8 by 8
    and with seventeen unused names; the layers that own weights are the
    seven convolutions and the two dense layers. *)
Theorem fatVGG_builds cifarInput num_classes name (g : Graph) h w c :
  t_shape cifarInput = [h; w; c] → 8 ≤ h → 8 ≤ w → 0 < c → 0 < num_classes →
  NoDup (t_history cifarInput) →
  (∀ n, n ∈ t_history cifarInput → is_Some (g !! n)) →
  (∀ n, n ∈ layer_names name 17 → g !! n = None) →
  ∃ g',
    fatVGG cifarInput num_classes name g
    = Some ({| t_shape := [num_classes];
               t_history := t_history cifarInput ++ layer_names name 17 |}, g')
    ∧ (∀ n, n ∉ layer_names name 17 → g' !! n = g !! n)
    ∧ (∀ n, n ∈ layer_names name 17 → is_trainable g' n = true)
    ∧ filter (λ n, owns_weights g' n = true) (layer_names name 17)
      = (λ i, name +:+ pretty i) <$> [0; 1; 4; 5; 8; 9; 10; 14; 16]
    ∧ kind <$> g' !! (name +:+ pretty 16) = Some (Dense num_classes softmax).
Proof.
  intros Hshape Hh8 Hw8 _ _ Hh Hin Hfresh.
  assert (2 ≤ h ∧ 2 ≤ w) as [Hh1 Hw1] by lia.
  assert (4 ≤ h `div` 2 ∧ 4 ≤ w `div` 2) as [Hh2' Hw2']
    by (split; apply half_ge; lia).
  assert (2 ≤ h `div` 2 ∧ 2 ≤ w `div` 2) as [Hh2 Hw2] by lia.
  assert (2 ≤ (h `div` 2) `div` 2 ∧ 2 ≤ (w `div` 2) `div` 2) as [Hh3 Hw3]
    by (split; apply half_ge; lia).
  destruct (chain_builds
              [Conv2D 32 (3, 3) relu; Conv2D 32 (3, 3) relu;
               MaxPooling2D (2, 2); Dropout 25;
               Conv2D 64 (3, 3) relu; Conv2D 64 (3, 3) relu;
               MaxPooling2D (2, 2); Dropout 25;
               Conv2D 128 (3, 3) relu; Conv2D 128 (3, 3) relu;
               Conv2D 128 (3, 3) relu;
               MaxPooling2D (2, 2); Dropout 25;
               Flatten; Dense 512 relu; Dropout 50;
               Dense num_classes softmax]
              (layer_names name 17) cifarInput g [num_classes])
    as (g' & Hrun & Hframe & Htrain & Hown & Hkind);
    [done|rewrite Hshape; by shape_steps|done|apply layer_names_NoDup|done..|].
  exists g'. rewrite fatVGG_chain.
  split; [done|]. split; [done|]. split; [done|]. split; [by rewrite Hown|].
  by apply (Hkind 16).
Qed.

(** X17: [subGate] takes an input of any shape that has at least two
    axes besides the batch: with five unused names it succeeds, its
    result has shape [[orig_classes; numExperts]], the graph gains
    exactly the five layers, all trainable, the two dense layers own the
    weights, and it ends with a softmax over all
    [orig_classes * numExperts] units followed by the reshape. *)
Theorem subGate_builds cifarInput orig_classes numExperts name (g : Graph) :
  2 ≤ length (t_shape cifarInput) →
  0 < orig_classes → 0 < numExperts →
  NoDup (t_history cifarInput) →
  (∀ n, n ∈ t_history cifarInput → is_Some (g !! n)) →
  (∀ n, n ∈ layer_names name 5 → g !! n = None) →
  ∃ g',
    subGate cifarInput orig_classes numExperts name g
    = Some ({| t_shape := [orig_classes; numExperts];
               t_history := t_history cifarInput ++ layer_names name 5 |}, g')
    ∧ (∀ n, n ∉ layer_names name 5 → g' !! n = g !! n)
    ∧ (∀ n, n ∈ layer_names name 5 → is_trainable g' n = true)
    ∧ filter (λ n, owns_weights g' n = true) (layer_names name 5)
      = (λ i, name +:+ pretty i) <$> [1; 3]
    ∧ (kind <$> g' !! (name +:+ pretty 3),
       kind <$> g' !! (name +:+ pretty 4))
      = (Some (Dense (orig_classes * numExperts) softmax),
         Some (Reshape [orig_classes; numExperts])).
Proof.
  intros Hrank _ _ Hh Hin Hfresh.
  destruct (chain_builds
              [Flatten; Dense 512 relu; Dropout 50;
               Dense (orig_classes * numExperts) softmax;
               Reshape [orig_classes; numExperts]]
              (layer_names name 5) cifarInput g [orig_classes; numExperts])
    as (g' & Hrun & Hframe & Htrain & Hown & Hkind);
    [done| |done|apply layer_names_NoDup|done..|].
  { rewrite (chain_shape_step _ _ _ [product (t_shape cifarInput)]).
    - shape_steps. simpl. rewrite decide_True; [done|]. simpl. lia.
    - unfold compute_output_shape. by rewrite decide_True. }
  exists g'. rewrite subGate_chain.
  split; [done|]. split; [done|]. split; [done|]. split; [by rewrite Hown|].
  f_equal; [by apply (Hkind 3)|by apply (Hkind 4)].
Qed.

Lemma freeze_lookup (l : list string) (g : Graph) n :
  foldl (λ g n, alter (λ l, {| kind := kind l; trainable := false |}) n g) g l
    !! n
  = if decide (n ∈ l)
    then (λ l, {| kind := kind l; trainable := false |}) <$> g !! n
    else g !! n.
Proof.
  revert g. induction l as [|a l IH]; intros g; simpl; [done|].
  rewrite IH. destruct (decide (a = n)) as [->|Hne].
  - rewrite (decide_True (P:=n ∈ n :: l)) by apply list_elem_of_here.
    assert (alter (λ l, {| kind := kind l; trainable := false |}) n g !! n
            = (λ l, {| kind := kind l; trainable := false |}) <$> g !! n)
      as -> by apply lookup_alter_eq.
    case_decide; [|done]. by destruct (g !! n).
  - assert (alter (λ l, {| kind := kind l; trainable := false |}) a g !! n
            = g !! n) as -> by (by apply lookup_alter_ne).
    destruct (decide (n ∈ l)) as [Hin|Hin].
    + by rewrite decide_True by (by apply list_elem_of_further).
    + rewrite decide_False; [done|].
      rewrite not_elem_of_cons. by split.
Qed.

(** X19: the freeze loop makes every layer of the model non-trainable
    and does nothing else: no layer changes its kind, no layer outside
    the model changes at all, and freezing again changes nothing.
    Whatever model is compiled afterwards hands no weight of a frozen
    layer to the optimizer. *)
Theorem freeze_spec model (g : Graph) :
  ∃ g',
    freeze model g = Some ((), g')
    ∧ (∀ n, kind <$> g' !! n = kind <$> g !! n)
    ∧ (∀ n, n ∈ m_layers model → is_trainable g' n = false)
    ∧ (∀ n, n ∉ m_layers model → g' !! n = g !! n)
    ∧ freeze model g' = Some ((), g')
    ∧ ∀ other collected,
        m_collected (compiled g' other) = Some collected →
        ∀ n, n ∈ collected → n ∈ m_layers other ∧ n ∉ m_layers model.
Proof.
  eexists. split; [reflexivity|].
  split; [|split; [|split; [|split]]].
  - intros n. etrans; [apply (f_equal (fmap kind)), freeze_lookup|].
    case_decide; [|done]. by destruct (g !! n).
  - intros n Hn. unfold is_trainable.
    etrans; [apply (f_equal (from_option trainable false)), freeze_lookup|].
    rewrite decide_True by done. by destruct (g !! n).
  - intros n Hn. etrans; [apply freeze_lookup|]. by rewrite decide_False.
  - unfold freeze. do 2 f_equal. apply map_eq. intros n.
    etrans; [apply freeze_lookup|]. case_decide as Hn; [|done].
    pose proof (freeze_lookup (m_layers model) g n) as E.
    rewrite decide_True in E by done.
    etrans; [apply (f_equal (fmap _)), E|]. etrans; [|symmetry; apply E].
    by destruct (g !! n).
  - intros other collected [= <-] n Hn.
    apply list_elem_of_filter in Hn as [Hn Hin]. split; [done|].
    intros Hfrozen. apply andb_prop_elim in Hn as [Htr _].
    unfold is_trainable in Htr.
    assert (from_option trainable false
              (foldl (λ g n, alter (λ l, {| kind := kind l; trainable := false |}) n g)
                 g (m_layers model) !! n) = false) as E.
    { etrans; [apply (f_equal (from_option trainable false)), freeze_lookup|].
      rewrite decide_True by done. by destruct (g !! n). }
    by rewrite E in Htr.
Qed.

Lemma simpleVGG_builds_witness :
  let input := {| t_shape := [32; 32; 3]; t_history := ["input"] |} in
  let g : Graph :=
    {["input" := {| kind := InputLayer [32; 32; 3]; trainable := false |}]} in
  ∃ g',
    simpleVGG input 10 "base" g
    = Some ({| t_shape := [10];
               t_history := "input" :: layer_names "base" 12 |}, g')
    ∧ filter (λ n, owns_weights g' n = true) (layer_names "base" 12)
      = ["base0"; "base1"; "base4"; "base5"; "base9"; "base11"].
Proof.
  intros input g.
  destruct (simpleVGG_builds input 10 "base" g 32 32 3)
    as (g' & Hrun & _ & _ & Hown & _).
  - reflexivity.
  - lia.
  - lia.
  - lia.
  - lia.
  - apply NoDup_singleton.
  - intros n Hn. apply list_elem_of_singleton in Hn as ->. by eexists.
  - apply Forall_forall.
    repeat (apply Forall_cons; split; [vm_compute; reflexivity|]).
    apply Forall_nil_2.
  - exists g'. split; [exact Hrun|exact Hown].
Defined.

Lemma fatVGG_builds_witness :
  let input := {| t_shape := [32; 32; 3]; t_history := ["input"] |} in
  let g : Graph :=
    {["input" := {| kind := InputLayer [32; 32; 3]; trainable := false |}]} in
  ∃ g',
    fatVGG input 2 "gate0" g
    = Some ({| t_shape := [2];
               t_history := "input" :: layer_names "gate0" 17 |}, g')
    ∧ filter (λ n, owns_weights g' n = true) (layer_names "gate0" 17)
      = ["gate00"; "gate01"; "gate04"; "gate05"; "gate08"; "gate09";
         "gate010"; "gate014"; "gate016"].
Proof.
  intros input g.
  destruct (fatVGG_builds input 2 "gate0" g 32 32 3)
    as (g' & Hrun & _ & _ & Hown & _).
  - reflexivity.
  - lia.
  - lia.
  - lia.
  - lia.
  - apply NoDup_singleton.
  - intros n Hn. apply list_elem_of_singleton in Hn as ->. by eexists.
  - apply Forall_forall.
    repeat (apply Forall_cons; split; [vm_compute; reflexivity|]).
    apply Forall_nil_2.
  - exists g'. split; [exact Hrun|exact Hown].
Defined.

Lemma subGate_builds_witness :
  let input := {| t_shape := [32; 32; 3]; t_history := ["input"] |} in
  let g : Graph :=
    {["input" := {| kind := InputLayer [32; 32; 3]; trainable := false |}]} in
  ∃ g',
    subGate input 10 2 "artExpertGate" g
    = Some ({| t_shape := [10; 2];
               t_history := "input" :: layer_names "artExpertGate" 5 |}, g')
    ∧ kind <$> g' !! "artExpertGate3" = Some (Dense 20 softmax).
Proof.
  intros input g.
  destruct (subGate_builds input 10 2 "artExpertGate" g)
    as (g' & Hrun & _ & _ & _ & Hkind).
  - simpl. lia.
  - lia.
  - lia.
  - apply NoDup_singleton.
  - intros n Hn. apply list_elem_of_singleton in Hn as ->. by eexists.
  - apply Forall_forall.
    repeat (apply Forall_cons; split; [vm_compute; reflexivity|]).
    apply Forall_nil_2.
  - exists g'. split; [exact Hrun|].
    exact (f_equal fst Hkind).
Defined.

Lemma freeze_spec_witness :
  let g : Graph :=
    {["base0" := {| kind := Conv2D 32 (3, 3) relu; trainable := true |}]} in
  let m := {| m_name := "baseModel"; m_layers := ["base0"];
              m_output_shape := [10]; m_collected := None |} in
  ∃ g', freeze m g = Some ((), g') ∧ is_trainable g' "base0" = false.
Proof.
  intros g m. destruct (freeze_spec m g) as (g' & Hrun & _ & Hfrozen & _).
  exists g'. split; [exact Hrun|]. apply Hfrozen, list_elem_of_here.
Defined.

(** ** Checkpoints and the cells around them *)

Section CheckpointFacts.
Context {R : Type} `{!Num R} {W Image : Type}.
Implicit Types (w : World R W Image) (f : File W).

Lemma getNewestModel_load model dirname w :
  getNewestModel model dirname w = Some (model, w)
  ∧ default [] (fs w !! normpath dirname) = []
  ∨ ∃ f, f ∈ default [] (fs w !! normpath dirname)
         ∧ Forall (λ f', (mtime f' ≤ mtime f)%Z)
             (default [] (fs w !! normpath dirname))
         ∧ getNewestModel model dirname w
           = match load_weights model f w with
             | Some (_, w') => Some (model, w')
             | None => None
             end.
Proof.
  pose proof (getNewestModel_cases model dirname w) as H.
  destruct (default [] (fs w !! normpath dirname)) as [|f0 found]; [by left|].
  destruct H as (before & f & after & -> & Hb & Ha & Hget).
  right. exists f. split; [|split; [|done]].
  - rewrite elem_of_app, elem_of_cons. auto.
  - apply Forall_app. split; [done|]. constructor; [lia|].
    eapply Forall_impl; [exact Ha|]. simpl. intros. lia.
Qed.

Lemma NoDup_fmap_inj {A B} (key : A → B) (l : list A) x y :
  NoDup (key <$> l) → x ∈ l → y ∈ l → key x = key y → x = y.
Proof.
  induction l as [|a l IH]; intros Hnd Hx Hy Hk; [by apply elem_of_nil in Hx|].
  rewrite fmap_cons in Hnd. apply NoDup_cons in Hnd as [Ha Hnd].
  apply elem_of_cons in Hx as [->|Hx]; apply elem_of_cons in Hy as [->|Hy].
  - done.
  - exfalso. apply Ha. rewrite Hk. by apply list_elem_of_fmap_2.
  - exfalso. apply Ha. rewrite <-Hk. by apply list_elem_of_fmap_2.
  - by apply IH.
Qed.

(** X10: what [getNewestModel] does is independent of the order in
    which [glob] lists the directory, as long as no two entries have the
    same modification time: from equal weights, two listings of the same
    entries either make both calls raise or make both return, with equal
    weights; and the call returns when every entry is a checkpoint of
    the model. *)
Theorem newest_independent_of_listing_order model dirname w1 w2 l1 l2 :
  fs w1 !! normpath dirname = Some l1 →
  fs w2 !! normpath dirname = Some l2 →
  l1 ≡ₚ l2 → NoDup (mtime <$> l1) → weights w1 = weights w2 →
  (λ r, (r.1, weights r.2)) <$> getNewestModel model dirname w1
  = (λ r, (r.1, weights r.2)) <$> getNewestModel model dirname w2
  ∧ (Forall (loadable model) l1 →
     is_Some (getNewestModel model dirname w1)).
Proof.
  intros H1 H2 Hperm Hnd Hw. split.
  - destruct (getNewestModel_load model dirname w1)
      as [[Hget1 E1]|(f1 & Hin1 & Hmax1 & Hget1)];
    destruct (getNewestModel_load model dirname w2)
      as [[Hget2 E2]|(f2 & Hin2 & Hmax2 & Hget2)];
    rewrite H1 in *; rewrite H2 in *; simpl in *.
    + rewrite Hget1, Hget2. simpl. by rewrite Hw.
    + subst l1. apply Permutation_nil in Hperm. subst l2.
      by apply elem_of_nil in Hin2.
    + subst l2. apply Permutation_nil_r in Hperm. subst l1.
      by apply elem_of_nil in Hin1.
    + assert (f1 = f2) as <-.
      { assert (f2 ∈ l1) as Hin2' by (by rewrite Hperm).
        assert (f1 ∈ l2) as Hin1' by (by rewrite <-Hperm).
        apply (NoDup_fmap_inj mtime l1); [done..|].
        pose proof (proj1 (Forall_forall _ _) Hmax1 f2 Hin2') as Hle1.
        pose proof (proj1 (Forall_forall _ _) Hmax2 f1 Hin1') as Hle2.
        simpl in Hle1, Hle2. lia. }
      rewrite Hget1, Hget2. unfold load_weights.
      destruct (saved f1 model) as [read|]; [|done]. simpl. by rewrite Hw.
  - intros Hall.
    destruct (getNewestModel_frame model dirname w1) as (w' & -> & _); [|done].
    by rewrite H1.
Qed.

(** X11: loading the newest checkpoint a second time changes nothing:
    [getNewestModel] returns when every entry of the directory is a
    checkpoint of the model, and whenever it returns, it returns the
    model it was given, and another [getNewestModel] on the same
    directory returns too and leaves every weight as it is. *)
Theorem getNewestModel_idempotent model dirname w :
  (Forall (loadable model) (default [] (fs w !! normpath dirname)) →
   is_Some (getNewestModel model dirname w))
  ∧ ∀ model' w',
      getNewestModel model dirname w = Some (model', w') →
      model' = model
      ∧ ∃ w'', getNewestModel model dirname w' = Some (model, w'')
               ∧ ∀ n, weights w'' n = weights w' n.
Proof.
  split.
  { intros Hall.
    by destruct (getNewestModel_frame model dirname w Hall) as (w' & -> & _). }
  intros model' w'. unfold getNewestModel, glob, mbind, NB_bind. simpl.
  destruct (decide (length ((λ f0 : File W, (f0, mtime f0))
              <$> default [] (fs w !! normpath dirname)) = 0)) as [E|E].
  { intros [= <- <-]. split; [done|]. exists w. by rewrite decide_True. }
  destruct (last (sorted snd ((λ f0 : File W, (f0, mtime f0))
              <$> default [] (fs w !! normpath dirname)))) as [newest|] eqn:El;
    [|done].
  simpl. unfold load_weights.
  destruct (saved newest.1 model) as [read|] eqn:Hread; [|done].
  intros [= <- <-]. split; [done|]. simpl.
  rewrite decide_False by done. rewrite El. simpl. rewrite Hread.
  eexists. split; [reflexivity|]. intros n. simpl.
  case_decide; [|done]. by destruct (read !! n).
Qed.
End CheckpointFacts.

Section Cells.
Context {R : Type} `{!Num R} {W Image : Type}.
Context (optimizer : Model → (string → W) → list Image → list (list R) →
                     list Image * list (list R) → string → W).
Context (checkpointed : Model → (string → W) → list Image → list (list R) →
                        list Image * list (list R) → list (File W) → list (File W)).
Context (scale : Image → Image).
Implicit Types (w : World R W Image).

Lemma bind_getNewestModel {A} model d (k : Model → NB R W Image A) w :
  Forall (loadable model) (default [] (fs w !! normpath d)) →
  ∃ w', (getNewestModel model d ≫= k) w = k model w'
        ∧ graph w' = graph w ∧ log w' = log w ∧ fs w' = fs w
        ∧ ∀ n, n ∉ m_layers model → weights w' n = weights w n.
Proof.
  intros Hall.
  destruct (getNewestModel_frame model d w Hall) as (w' & Hget & H).
  exists w'. split; [|done]. unfold mbind, NB_bind. by rewrite Hget.
Qed.

Lemma bind_fit {A} model collected classes x y val d
    (k : () → NB R W Image A) w :
  m_collected model = Some collected → m_output_shape model = [classes] →
  fits classes x y → fits classes val.1 val.2 → x ≠ [] → val.1 ≠ [] →
  is_Some (fs w !! normpath d) →
  (fit optimizer checkpointed model x y val d ≫= k) w
  = k () {| graph := graph w;
            weights := λ n, if decide (n ∈ collected)
                            then optimizer model (weights w) x y val n
                            else weights w n;
            fs := <[normpath d :=
                      checkpointed model (weights w) x y val
                        (default [] (fs w !! normpath d))]> (fs w);
            log := log w ++ [FitBegin (m_name model) x y val;
                             FitEnd (m_name model)] |}.
Proof.
  intros Hc Hs Hx Hv Hne Hvne Hd. unfold mbind, NB_bind, fit. rewrite Hc, Hs.
  by rewrite decide_True.
Qed.

(** X12: with a checkpoint callback that writes checkpoints, on data
    that fits the network's output and has a training and a validation
    example, and with a checkpoint directory that is missing or empty,
    the training cells of one network succeed, return the compiled
    model, and touch nothing but that network: the graph, the weights of
    every layer outside the model and every other directory stay as they
    were, and the log grows by exactly one training run. *)
Theorem train_cells_frame model saveDir x y val classes w :
  writes_checkpoints checkpointed →
  m_output_shape model = [classes] →
  fits classes x y → fits classes val.1 val.2 →
  x ≠ [] → val.1 ≠ [] →
  default [] (fs w !! normpath saveDir) = [] →
  ∃ w',
    train_cells optimizer checkpointed model saveDir x y val w
    = Some (compiled (graph w) model, w')
    ∧ graph w' = graph w
    ∧ (∀ n, n ∉ m_layers model → weights w' n = weights w n)
    ∧ (∀ d, d ≠ normpath saveDir → fs w' !! d = fs w !! d)
    ∧ log w' = log w ++ [FitBegin (m_name model) x y val;
                         FitEnd (m_name model)].
Proof.
  intros Hcp Hshape Hx Hval Hne Hvne Hdir. unfold train_cells.
  match goal with
  | |- context [(liftG (compile model) ≫= ?k) w] =>
      change ((liftG (compile model) ≫= k) w)
        with (k (compiled (graph w) model)
                {| graph := graph w; weights := weights w; fs := fs w;
                   log := log w |})
  end.
  cbv beta.
  match goal with
  | |- context [(ensure_dir saveDir ≫= ?k) ?w0] =>
      change ((ensure_dir saveDir ≫= k) w0)
        with (k () {| graph := graph w; weights := weights w;
                      fs := match fs w !! normpath saveDir with
                            | Some _ => fs w
                            | None => <[normpath saveDir := []]> (fs w)
                            end;
                      log := log w |})
  end.
  cbv beta.
  assert (∀ d, d ≠ normpath saveDir →
            match fs w !! normpath saveDir with
            | Some _ => fs w
            | None => <[normpath saveDir := []]> (fs w)
            end !! d = fs w !! d) as Hother.
  { intros d Hd. destruct (fs w !! normpath saveDir); [done|].
    by apply lookup_insert_ne. }
  assert (match fs w !! normpath saveDir with
          | Some _ => fs w
          | None => <[normpath saveDir := []]> (fs w)
          end !! normpath saveDir = Some []) as Hempty.
  { destruct (fs w !! normpath saveDir) as [l|] eqn:E.
    - rewrite E. simpl in Hdir. by rewrite Hdir.
    - apply lookup_insert_eq. }
  match goal with
  | |- context [(getNewestModel ?m ?d ≫= ?k) ?w0] =>
      destruct (bind_getNewestModel m d k w0)
        as (w3 & -> & Hg3 & Hl3 & Hf3 & Hw3)
  end.
  { simpl. rewrite Hempty. constructor. }
  simpl in Hg3, Hl3, Hf3, Hw3.
  rewrite (bind_fit _ (filter (λ n, is_trainable (graph w) n
                                   && owns_weights (graph w) n)
                         (m_layers model)) classes)
    by (try done; by rewrite Hf3, Hempty).
  rewrite Hf3, Hempty. simpl default.
  match goal with
  | |- context [getNewestModel ?m ?d ?w0] =>
      destruct (getNewestModel_frame m d w0)
        as (w5 & -> & Hg5 & Hl5 & Hf5 & Hw5)
  end.
  { simpl. rewrite lookup_insert_eq. simpl. apply Hcp. }
  simpl in Hg5, Hl5, Hf5, Hw5. exists w5. split; [done|].
  split; [congruence|]. split; [|split].
  - intros n Hn. rewrite Hw5 by done.
    rewrite decide_False; [by rewrite Hw3|].
    intros Hin. apply Hn. by apply list_elem_of_filter in Hin as [_ ?].
  - intros d Hd. rewrite Hf5. rewrite lookup_insert_ne by done. by apply Hother.
  - rewrite Hl5. by rewrite Hl3.
Qed.

Lemma bind_rmtree {A} d (k : () → NB R W Image A) w :
  (rmtree d ≫= k) w
  = k () {| graph := graph w; weights := weights w;
            fs := delete (normpath d) (fs w); log := log w |}.
Proof. reflexivity. Qed.

Lemma bind_lift_None {A B} (o : option A) (k : A → NB R W Image B) w :
  o = None → (lift o ≫= k) w = None.
Proof. by intros ->. Qed.

Lemma bind_lift_Some {A B} (o : option A) a (k : A → NB R W Image B) w :
  o = Some a → (lift o ≫= k) w = k a w.
Proof. by intros ->. Qed.

Lemma bind_None {A B} (m : NB R W Image A) (k : A → NB R W Image B) w :
  m w = None → (m ≫= k) w = None.
Proof. intros H. unfold mbind, NB_bind. by rewrite H. Qed.



(** X14: a label that is not below 10 among the labels the notebook
    uses (training or test) makes the run fail, whatever the world it
    starts in. *)
Theorem notebook_rejects_bad_label s c w :
  Exists (λ l, orig_classes ≤ l) (take (train_examples s) (cifar_y_train c))
  ∨ Exists (λ l, orig_classes ≤ l) (take (test_examples s) (cifar_y_test c)) →
  notebook optimizer checkpointed scale s c w = None.
Proof.
  intros Hbad. unfold notebook. apply bind_None.
  unfold cells_10_61. rewrite !bind_rmtree. cbv zeta.
  destruct (to_categorical (R:=R) (take (train_examples s) (cifar_y_train c))
              orig_classes) as [t|] eqn:Htrain.
  - rewrite (bind_lift_Some _ t) by done.
    apply bind_lift_None, to_categorical_None.
    destruct Hbad as [Hbad|Hbad]; [|done].
    apply to_categorical_inv in Htrain as [Hall _].
    apply Exists_exists in Hbad as (l & Hl & Hk).
    pose proof (proj1 (Forall_forall _ _) Hall l Hl) as Hlt. simpl in Hlt. lia.
  - by apply bind_lift_None.
Qed.
End Cells.

Lemma newest_independent_of_listing_order_witness :
  let a : File nat :=
    {| path := "a.hdf5"; mtime := 3; saved := λ _, Some {["base0" := 1]} |} in
  let b : File nat :=
    {| path := "b.hdf5"; mtime := 7; saved := λ _, Some {["base0" := 2]} |} in
  let w1 : World Z nat nat :=
    {| graph := ∅; weights := λ _, 0; fs := {["baseCifar10" := [a; b]]};
       log := [] |} in
  let w2 : World Z nat nat :=
    {| graph := ∅; weights := λ _, 0; fs := {["baseCifar10" := [b; a]]};
       log := [] |} in
  let m := {| m_name := "baseModel"; m_layers := ["input"; "base0"];
              m_output_shape := [10]; m_collected := None |} in
  (λ r, (r.1, weights r.2)) <$> getNewestModel m "./baseCifar10/" w1
  = (λ r, (r.1, weights r.2)) <$> getNewestModel m "./baseCifar10/" w2
  ∧ is_Some (getNewestModel m "./baseCifar10/" w1).
Proof.
  intros a b w1 w2 m.
  destruct (newest_independent_of_listing_order m "./baseCifar10/" w1 w2
              [a; b] [b; a]) as [Hsame Hreturns].
  - reflexivity.
  - reflexivity.
  - apply perm_swap.
  - apply NoDup_cons. split; [|apply NoDup_singleton].
    rewrite list_elem_of_singleton. simpl. lia.
  - reflexivity.
  - split; [exact Hsame|]. apply Hreturns.
    repeat (apply Forall_cons; split; [by eexists|]). apply Forall_nil_2.
Defined.

Lemma getNewestModel_idempotent_witness :
  let a : File nat :=
    {| path := "a.hdf5"; mtime := 3; saved := λ _, Some {["base0" := 1]} |} in
  let w : World Z nat nat :=
    {| graph := ∅; weights := λ _, 0; fs := {["baseCifar10" := [a]]};
       log := [] |} in
  let m := {| m_name := "baseModel"; m_layers := ["input"; "base0"];
              m_output_shape := [10]; m_collected := None |} in
  is_Some (getNewestModel m "./baseCifar10/" w).
Proof.
  intros a w m.
  apply (proj1 (getNewestModel_idempotent m "./baseCifar10/" w)).
  apply Forall_cons. split; [by eexists|]. apply Forall_nil_2.
Defined.

Lemma train_cells_frame_witness :
  let m := {| m_name := "gate0Model"; m_layers := ["input"; "gate00"];
              m_output_shape := [2]; m_collected := None |} in
  ∃ w',
    train_cells sample_optimizer sample_checkpointed m "./gate0Cifar10/"
      [10; 11] [[1; 0]; [0; 1]]%Z ([20], [[0; 1]]%Z) sample_world
    = Some (compiled ∅ m, w')
    ∧ graph w' = ∅
    ∧ (∀ n, n ∉ m_layers m → weights w' n = 0)
    ∧ (∀ d, d ≠ "gate0Cifar10" → fs w' !! d = None)
    ∧ log w' = [FitBegin "gate0Model" [10; 11] [[1; 0]; [0; 1]]%Z
                  ([20], [[0; 1]]%Z);
                FitEnd "gate0Model"].
Proof.
  intros m.
  apply (train_cells_frame sample_optimizer sample_checkpointed m
           "./gate0Cifar10/" [10; 11] [[1; 0]; [0; 1]]%Z ([20], [[0; 1]]%Z)
           2 sample_world).
  - exact sample_writes.
  - reflexivity.
  - split; reflexivity.
  - split; reflexivity.
  - discriminate.
  - discriminate.
  - reflexivity.
Defined.


Lemma notebook_rejects_bad_label_witness :
  notebook sample_optimizer sample_checkpointed S sample_settings
    {| cifar_x_train := [10; 11; 12]; cifar_y_train := [0; 12; 3];
       cifar_x_test := [20]; cifar_y_test := [8] |}
    sample_world
  = None.
Proof.
  apply (notebook_rejects_bad_label sample_optimizer sample_checkpointed S).
  left. simpl. apply Exists_cons_tl, Exists_cons_hd. unfold orig_classes. lia.
Defined.

(** ** The four networks of cell 19 *)

(** X20: whatever the size flags, cell 19 builds its four networks on
    an empty graph without error, and any two of them have the input
    layer in common and no other layer; the input layer owns no
    weights, so no two networks share a weight. *)
Theorem networks_share_only_input f :
  ∃ n g,
    define_architectures f ∅ = Some (n, g)
    ∧ owns_weights g "input" = false
    ∧ ∀ m1 m2 l,
        m1 ∈ [baseModel n; gate0Model n; artificialModel n; naturalModel n] →
        m2 ∈ [baseModel n; gate0Model n; artificialModel n; naturalModel n] →
        m_name m1 ≠ m_name m2 →
        l ∈ m_layers m1 → l ∈ m_layers m2 → l = "input".
Proof.
  assert ((λ r : Nets * Graph,
             bool_decide
               (owns_weights r.2 "input" = false
                ∧ Forall (λ m1,
                    Forall (λ m2,
                      m_name m1 = m_name m2
                      ∨ Forall (λ l, l ∉ m_layers m2 ∨ l = "input")
                          (m_layers m1))
                      [baseModel r.1; gate0Model r.1; artificialModel r.1;
                       naturalModel r.1])
                    [baseModel r.1; gate0Model r.1; artificialModel r.1;
                     naturalModel r.1]))
            <$> define_architectures f ∅ = Some true) as H.
  { destruct f as [[] [] []]; vm_compute; reflexivity. }
  destruct (define_architectures f ∅) as [[n g]|]; simpl in H; [|done].
  injection H as H. apply bool_decide_eq_true in H as [Hinput Hall].
  exists n, g. split; [done|]. split; [done|].
  intros m1 m2 l Hm1 Hm2 Hne Hl1 Hl2.
  pose proof (proj1 (Forall_forall _ _) Hall m1 Hm1) as H1. simpl in H1.
  pose proof (proj1 (Forall_forall _ _) H1 m2 Hm2) as [Heq|H2]; [done|].
  by destruct (proj1 (Forall_forall _ _) H2 l Hl1).
Qed.
